(** * The lobby server of ygodraftcenter: [src/server/server.py]

    A shallow embedding of the two listeners of the game server
    ([TcpServer], the control plane, and [UdpServer], the data plane)
    over the room store they share, and the properties of the
    specification that concern them.

    Python values decoded from the wire are [json] terms, Python
    exceptions are the constructors of [exn], and every side effect a
    listener has on the outside world (lock operations, calls into the
    store, bytes written to a socket, lines printed) is an [event] of the
    trace of the computation.  The store is threaded explicitly and
    survives an exception, as a Python object does. *)

From stdpp Require Import gmap strings list fin_maps.
From Stdlib Require Import ZArith Ascii String SpecFloat.

Open Scope string_scope.
Open Scope list_scope.
Open Scope nat_scope.

Set Warnings "-register-all".

(** ** Values, exceptions, events *)

(** What [json.loads] can return.  [JNum] holds the integers and [JFloat]
    the floats (the zeros, the infinities, NaN and the finite values
    [m * 2^e] with their sign); a str is held as the bytes of its UTF-8
    encoding, which keeps equality and the ASCII prefixes the program
    tests; [JNull] is Python's [None], which is also what the listeners
    put in place of an absent key. *)
Inductive json : Type :=
| JNull
| JBool (b : bool)
| JNum (n : Z)
| JFloat (f : spec_float)
| JStr (s : string)
| JArr (l : list json)
| JObj (kvs : list (string * json)).

(** The exceptions that occur in the listeners: the Python built-ins and
    the three imported from [rooms]. *)
Inductive exn : Type :=
| KeyError
| ValueError
| TypeError
| AttributeError
| UnboundLocalError
| RecursionError
| OverflowError
| RoomNotFound
| RoomFull
| NotInRoom.

(** A network address, [(host, port)]. *)
Definition address : Type := string * Z.

(** An accepted TCP connection (the [conn] of [accept]). *)
Definition conn : Type := nat.

(** The methods of the store. *)
Inductive store_op : Type :=
| OpRegister | OpCreate | OpJoin | OpLeave | OpSend | OpSendto | OpRemoveEmpty.

(** What is written on a TCP connection: the reply envelope of
    [client.send_tcp]. *)
Inductive tcp_msg : Type :=
| Envelope (success : bool) (message : json).

(** The str values the listeners themselves pass to [send]: the template
    [self.msg % {...}] and a bare text. *)
Inductive text : Type :=
| Template (success message : string)
| Text (s : string).

(** The lines printed by the listeners. *)
Inductive log_msg : Type :=
| LogJsonNotValid (addr : address)
| LogNotJsonString (addr : address)
| LogRoomNotFound
| LogUnknownIdentifier (identifier : json) (addr : address).

Inductive event : Type :=
| Acquire                                  (* self.lock.acquire() *)
| Release                                  (* self.lock.release() *)
| Call (op : store_op)                     (* entry into a method of self.rooms *)
| Send (sock : conn) (m : tcp_msg)         (* bytes written on a TCP connection *)
| Close (sock : conn)                      (* conn.close() *)
| Deliver (recipient : string) (to : address) (message : json)
                                           (* a datagram sent through the UDP socket *)
| Log (m : log_msg).                       (* print(...) *)

(** ** The store: [Rooms], [Room] and the registered players

    [server.py] reads [rooms.rooms] and [rooms.players] (two dicts),
    [room.identifier], [room.name], [room.players], [room.capacity],
    [player.identifier] and [player.udp_addr]; the records have these
    fields.  The rooms are kept in insertion order, as a Python dict
    keeps them. *)

Record Room : Type := mkRoom {
  r_identifier : string;
  r_name : json;
  r_players : gset string;
  r_capacity : nat
}.

Record Player : Type := mkPlayer {
  p_identifier : string;
  p_udp_addr : address;
  p_room : option string
}.

Record Rooms : Type := mkRooms {
  rooms : list (string * Room);
  players : gmap string Player;
  capacity : nat
}.

(** [Rooms(capacity)] *)
Definition Rooms_init (c : nat) : Rooms :=
  {| rooms := []; players := ∅; capacity := c |}.

(** [rooms.rooms[room_id]] on the ordered dict. *)
Fixpoint room_lookup (room_id : string) (l : list (string * Room)) : option Room :=
  match l with
  | [] => None
  | (k, r) :: l' => if bool_decide (k = room_id) then Some r else room_lookup room_id l'
  end.

(** In-place update of the room stored at [room_id]. *)
Fixpoint room_update (room_id : string) (f : Room → Room) (l : list (string * Room))
  : list (string * Room) :=
  match l with
  | [] => []
  | (k, r) :: l' =>
      if bool_decide (k = room_id) then (k, f r) :: l'
      else (k, r) :: room_update room_id f l'
  end.

(** ** The monad of the listeners: store, trace, exception *)

Inductive outcome (A : Type) : Type :=
| Ret (a : A)
| Raise (e : exn).
Arguments Ret {A} a.
Arguments Raise {A} e.

Definition M (A : Type) : Type := Rooms → Rooms * list event * outcome A.

Definition store_of {A} (x : Rooms * list event * outcome A) : Rooms := x.1.1.
Definition trace_of {A} (x : Rooms * list event * outcome A) : list event := x.1.2.
Definition outcome_of {A} (x : Rooms * list event * outcome A) : outcome A := x.2.

Definition ret {A} (a : A) : M A := λ st, (st, [], Ret a).

Definition bind {A B} (m : M A) (f : A → M B) : M B :=
  λ st,
    match m st with
    | (st1, t1, Ret a) =>
        match f a st1 with
        | (st2, t2, r) => (st2, t1 ++ t2, r)
        end
    | (st1, t1, Raise e) => (st1, t1, Raise e)
    end.

#[global] Instance M_ret : MRet M := @ret.
#[global] Instance M_bind : MBind M := λ A B f m, bind m f.

Definition raise {A} (e : exn) : M A := λ st, (st, [], Raise e).
Definition emit (ev : event) : M unit := λ st, (st, [ev], Ret tt).
Definition get : M Rooms := λ st, (st, [], Ret st).
Definition put (st' : Rooms) : M unit := λ _, (st', [], Ret tt).

(** [try: m except <the e with handler e = Some h>: h] *)
Definition try_except {A} (m : M A) (handler : exn → option (M A)) : M A :=
  λ st,
    match m st with
    | (st1, t1, Raise e) =>
        match handler e with
        | Some h =>
            match h st1 with
            | (st2, t2, r) => (st2, t1 ++ t2, r)
            end
        | None => (st1, t1, Raise e)
        end
    | x => x
    end.

(** [try: m finally: fin] where [fin] does not raise. *)
Definition try_finally {A} (m : M A) (fin : M unit) : M A :=
  λ st,
    match m st with
    | (st1, t1, r) =>
        match fin st1 with
        | (st2, t2, _) => (st2, t1 ++ t2, r)
        end
    end.

(** [try: m except BaseException: pass] *)
Definition suppress (m : M unit) : M unit :=
  try_except m (λ _, Some (ret tt)).

(** ** Python operations on decoded values *)

(** The value bound to [k] in a decoded object; [json.loads] keeps the
    last of several bindings of one key. *)
Fixpoint obj_get (k : string) (kvs : list (string * json)) : option json :=
  match kvs with
  | [] => None
  | (k', v) :: kvs' =>
      match obj_get k kvs' with
      | Some w => Some w
      | None => if bool_decide (k' = k) then Some v else None
      end
  end.

(** [d[k]] for a string [k]: [KeyError] on a dict without the key,
    [TypeError] on anything that is not a dict. *)
Definition subscript (d : json) (k : string) : M json :=
  match d with
  | JObj kvs =>
      match obj_get k kvs with
      | Some v => ret v
      | None => raise KeyError
      end
  | _ => raise TypeError
  end.

(** [try: x = d[k]  except KeyError: x = None] *)
Definition subscript_or_none (d : json) (k : string) : M json :=
  try_except (subscript d k)
    (λ e, match e with KeyError => Some (ret JNull) | _ => None end).

(** [v == s] for a string literal [s]. *)
Definition is_str (v : json) (s : string) : bool :=
  match v with
  | JStr t => bool_decide (t = s)
  | _ => false
  end.

(** [v is None] *)
Definition is_none (v : json) : bool :=
  match v with
  | JNull => true
  | _ => false
  end.

(** The key under which [v] is looked up in a dict whose keys are
    strings: the string itself, no key for the other hashable values
    (they equal no string), [TypeError] for lists and dicts, which are
    unhashable. *)
Definition dict_key (v : json) : M (option string) :=
  match v with
  | JStr s => ret (Some s)
  | JArr _ | JObj _ => raise TypeError
  | JNull | JBool _ | JNum _ | JFloat _ => ret None
  end.

(** [int(s)] for a str [s]: the integer the string denotes, or [None]
    when [int] raises [ValueError], the only exception it has for a str.
    Which strings are numerals (blanks, sign, underscores, the decimal
    digits of Unicode, the limit on the number of digits) is Python's
    business: the function is a parameter, and what is proved holds
    whatever it is. *)
Class PyInt : Type := int_of_str : string → option Z.

(** [int(f)] for a float: truncation towards zero; [OverflowError] for an
    infinity and [ValueError] for NaN. *)
Definition int_of_float (f : spec_float) : outcome Z :=
  match f with
  | S754_zero _ => Ret 0%Z
  | S754_finite negative m e =>
      let magnitude :=
        (if 0 <=? e then Z.shiftl (Z.pos m) e else Z.shiftr (Z.pos m) (- e))%Z in
      Ret (if negative then - magnitude else magnitude)%Z
  | S754_infinity _ => Raise OverflowError
  | S754_nan => Raise ValueError
  end.

(** [int(v)]: the value, or the exception it raises. *)
Definition py_int {int_str : PyInt} (v : json) : outcome Z :=
  match v with
  | JNum n => Ret n
  | JBool b => Ret (if b then 1 else 0)%Z
  | JFloat f => int_of_float f
  | JStr s =>
      match int_of_str s with
      | Some n => Ret n
      | None => Raise ValueError
      end
  | JNull | JArr _ | JObj _ => Raise TypeError
  end.

(** A pure evaluation inside a listener. *)
Definition lift {A} (o : outcome A) : M A :=
  match o with
  | Ret a => ret a
  | Raise e => raise e
  end.

(** ** The methods of the store

    [rooms.py] is not part of the sources at hand; the methods follow the
    contracts of the specification (section 4.1).  Each one records its
    entry in the trace with a [Call] event. *)

Definition add_player (identifier : string) (r : Room) : Room :=
  {| r_identifier := r_identifier r; r_name := r_name r;
     r_players := {[identifier]} ∪ r_players r; r_capacity := r_capacity r |}.

Definition remove_player (identifier : string) (r : Room) : Room :=
  {| r_identifier := r_identifier r; r_name := r_name r;
     r_players := r_players r ∖ {[identifier]}; r_capacity := r_capacity r |}.

Definition set_room (room_id : option string) (p : Player) : Player :=
  {| p_identifier := p_identifier p; p_udp_addr := p_udp_addr p; p_room := room_id |}.

(** Modelled from the spec: [Rooms.register] of the missing [rooms.py].
    "Allocates a fresh session identifier, stores the caller's data-plane
    address, returns the new Client.  Never fails."  The second argument
    is not used by the contract. *)
Definition Rooms_register (addr : address) (hint : Z) : M Player :=
  emit (Call OpRegister);;
  st ← get;
  let identifier := fresh (dom (players st)) in
  let client := {| p_identifier := identifier; p_udp_addr := addr; p_room := None |} in
  put {| rooms := rooms st;
         players := <[identifier := client]> (players st);
         capacity := capacity st |};;
  ret client.

(** Modelled from the spec: the allocation of a room shared by
    [Rooms.create] and by auto-join.  "Allocates a fresh room identifier,
    inserts an empty Room with the given display name and the Store's
    fixed capacity." *)
Definition new_room (name : json) : M string :=
  st ← get;
  let room_id := fresh (list_to_set (rooms st).*1 : gset string) in
  let room := {| r_identifier := room_id; r_name := name;
                 r_players := ∅; r_capacity := capacity st |} in
  put {| rooms := rooms st ++ [(room_id, room)];
         players := players st;
         capacity := capacity st |};;
  ret room_id.

(** Modelled from the spec: [Rooms.create] of the missing [rooms.py].
    "Never fails (no dedup on name)." *)
Definition Rooms_create (name : json) : M string :=
  emit (Call OpCreate);;
  new_room name.

(** Modelled from the spec: joining a named room, the body of
    [Rooms.join] of the missing [rooms.py].  "Adds client_id to the named
    room's member set and sets the Client's room reference.  Fails with
    RoomNotFound if room_id is unknown; fails with RoomFull if
    size(members) == capacity."  The members are a set: a repeated join
    adds nothing. *)
Definition join_room (identifier room_id : string) : M string :=
  st ← get;
  match room_lookup room_id (rooms st) with
  | None => raise RoomNotFound
  | Some r =>
      if bool_decide (size (r_players r) = r_capacity r) then raise RoomFull
      else
        put {| rooms := room_update room_id (add_player identifier) (rooms st);
               players := alter (set_room (Some room_id)) identifier (players st);
               capacity := capacity st |};;
        ret room_id
  end.

(** The first room with free capacity, in creation order. *)
Fixpoint first_free (l : list (string * Room)) : option string :=
  match l with
  | [] => None
  | (k, r) :: l' =>
      if bool_decide (size (r_players r) < r_capacity r) then Some k
      else first_free l'
  end.

(** Modelled from the spec: [Rooms.join] of the missing [rooms.py], with
    the room given or omitted (auto-join).  Auto-join "scans rooms for the
    first with free capacity in a stable, deterministic order (insertion
    order of room creation) and joins it; if none has free capacity,
    creates a new room first, then joins it.  Returns the resolved
    room_id. [...] may still fail if the Client identity is unknown"; the
    kind of that failure is not named, [KeyError] is the one of a failed
    dict lookup. *)
Definition Rooms_join (identifier : string) (room_id : option string) : M string :=
  emit (Call OpJoin);;
  match room_id with
  | Some room_id => join_room identifier room_id
  | None =>
      st ← get;
      if bool_decide (identifier ∈ dom (players st)) then
        match first_free (rooms st) with
        | Some room_id => join_room identifier room_id
        | None => room_id ← new_room JNull; join_room identifier room_id
        end
      else raise KeyError
  end.

(** Modelled from the spec: [Rooms.leave] of the missing [rooms.py].
    "Removes membership.  Fails with RoomNotFound if the room is unknown;
    fails with NotInRoom if the client is not currently a member.  Clears
    the Client's room reference on success." *)
Definition Rooms_leave (identifier room_id : string) : M unit :=
  emit (Call OpLeave);;
  st ← get;
  match room_lookup room_id (rooms st) with
  | None => raise RoomNotFound
  | Some r =>
      if bool_decide (identifier ∈ r_players r) then
        put {| rooms := room_update room_id (remove_player identifier) (rooms st);
               players := alter (set_room None) identifier (players st);
               capacity := capacity st |}
      else raise NotInRoom
  end.

(** Modelled from the spec: [Rooms.remove_empty] of the missing
    [rooms.py].  "Deletes every Room whose member set is empty." *)
Definition Rooms_remove_empty : M unit :=
  emit (Call OpRemoveEmpty);;
  st ← get;
  put {| rooms := filter (λ kr, r_players kr.2 ≠ ∅) (rooms st);
         players := players st;
         capacity := capacity st |}.

(** One datagram per member, to its stored address; a member without a
    record receives nothing. *)
Fixpoint deliver (st : Rooms) (members : list string) (message : json) : M unit :=
  match members with
  | [] => ret tt
  | m :: members' =>
      match players st !! m with
      | Some p => emit (Deliver m (p_udp_addr p) message)
      | None => ret tt
      end;;
      deliver st members' message
  end.

(** The members of [r] a relay from [sender] reaches: all the others. *)
Definition relay_targets (sender : string) (r : Room) : list string :=
  elements (r_players r ∖ {[sender]}).

(** The sender of a relay must be a registered client whose room
    reference is [room_id]. *)
Definition sender_in_room (st : Rooms) (identifier : json) (room_id : string)
  : option string :=
  match identifier with
  | JStr sender =>
      match players st !! sender with
      | Some p => if bool_decide (p_room p = Some room_id) then Some sender else None
      | None => None
      end
  | _ => None
  end.

(** Modelled from the spec: [Rooms.send] of the missing [rooms.py].
    "Resolves the sender's room membership (must match room_id),
    enumerates all other members of that room, and delivers message to
    each member's stored data-plane address via the transport." *)
Definition Rooms_send (identifier : json) (room_id : string) (message : json) : M unit :=
  emit (Call OpSend);;
  st ← get;
  match room_lookup room_id (rooms st) with
  | None => raise RoomNotFound
  | Some r =>
      match sender_in_room st identifier room_id with
      | Some sender => deliver st (relay_targets sender r) message
      | None => raise NotInRoom
      end
  end.

(** The session identifiers listed in a decoded [recipients] value. *)
Definition recipient_ids (recipients : json) : list string :=
  match recipients with
  | JArr l => omap (λ v, match v with JStr s => Some s | _ => None end) l
  | _ => []
  end.

(** Modelled from the spec: [Rooms.sendto] of the missing [rooms.py].
    "As above, but restricts delivery to the intersection of recipient_ids
    and current room membership (recipients outside the room are ignored,
    not errored)."  As above: the sender must be in the room and the
    members enumerated are the other ones. *)
Definition Rooms_sendto (identifier : json) (room_id : string)
    (recipients message : json) : M unit :=
  emit (Call OpSendto);;
  st ← get;
  match room_lookup room_id (rooms st) with
  | None => raise RoomNotFound
  | Some r =>
      match sender_in_room st identifier room_id with
      | Some sender =>
          deliver st
            (filter (λ m, m ∈ recipient_ids recipients) (relay_targets sender r))
            message
      | None => raise NotInRoom
      end
  end.

(** Modelled from the spec: [send_tcp] of the client objects of the
    missing [rooms.py], which writes the reply envelope
    [{"success": success, "message": data}] on the connection. *)
Definition send_tcp (success : bool) (data : json) (sock : conn) : M unit :=
  emit (Send sock (Envelope success data)).

(** ** The control plane: [TcpServer] *)

(** What [json.loads] makes of the bytes received, which is the input of
    a listener: a value; [ValueError] for bytes that are not JSON (a
    [JSONDecodeError] or a [UnicodeDecodeError], both of that class); or
    [RecursionError] for brackets nested deeper than the interpreter's
    stack allows (a thousand fit in the 1024 bytes read). *)
Inductive received : Type :=
| Decoded (v : json)
| NotJson
| TooDeep.

(** [json.loads(data)] *)
Definition json_loads (data : received) : M json :=
  match data with
  | Decoded v => ret v
  | NotJson => raise ValueError
  | TooDeep => raise RecursionError
  end.

(** [sock.send(text)] with a str: a socket takes bytes only, so the call
    raises [TypeError] and nothing is written.  (The program is Python 3:
    the console compares what [input] returns with strings.) *)
Definition send_str (sock : conn) (t : text) : M unit := raise TypeError.

(** The list built by the [get_rooms] branch. *)
Definition rooms_snapshot (st : Rooms) : json :=
  JArr (map (λ kr : string * Room,
               JObj [("id", JStr kr.1);
                     ("name", r_name kr.2);
                     ("nb_players", JNum (Z.of_nat (size (r_players kr.2))));
                     ("capacity", JNum (Z.of_nat (r_capacity kr.2)))])
            (rooms st)).

(** The handlers [except RoomNotFound] and [except RoomFull] of the
    [join] branch, and [except RoomNotFound], [except NotInRoom] of the
    [leave] branch: all reply [send_tcp(False, room_id, sock)]. *)
Definition join_handler (room_id : json) (sock : conn) (e : exn) : option (M unit) :=
  match e with
  | RoomNotFound | RoomFull => Some (send_tcp false room_id sock)
  | _ => None
  end.

Definition leave_handler (room_id : json) (sock : conn) (e : exn) : option (M unit) :=
  match e with
  | RoomNotFound | NotInRoom => Some (send_tcp false room_id sock)
  | _ => None
  end.

(** [TcpServer.route].  Two statements of the source raise before doing
    anything: in the [leave] branch the name [rooms] is a local variable
    of [route] (the [get_rooms] branch assigns it) that is unbound there,
    and in the last branch [sock] is a socket, which has no [send_tcp]. *)
Definition route {int_str : PyInt} (sock : conn) (addr : address)
    (action payload identifier room_id : json) : M unit :=
  if is_str action "register" then
    port ← lift (py_int payload);
    client ← Rooms_register addr port;
    send_tcp true (JStr (p_identifier client)) sock
  else if is_none identifier then ret tt
  else
    key ← dict_key identifier;
    st ← get;
    match key with
    | Some ident =>
        match players st !! ident with
        | Some client =>
            if is_str action "join" then
              try_except
                (room_key ← dict_key payload;
                 st ← get;
                 match room_key with
                 | Some room =>
                     match room_lookup room (rooms st) with
                     | Some _ =>
                         Rooms_join ident (Some room);;
                         send_tcp true payload sock
                     | None => raise RoomNotFound
                     end
                 | None => raise RoomNotFound
                 end)
                (join_handler room_id sock)
            else if is_str action "autojoin" then
              room ← Rooms_join ident None;
              send_tcp true (JStr room) sock
            else if is_str action "get_rooms" then
              st ← get;
              send_tcp true (rooms_snapshot st) sock
            else if is_str action "create" then
              room_identifier ← Rooms_create payload;
              Rooms_join (p_identifier client) (Some room_identifier);;
              send_tcp true (JStr room_identifier) sock
            else if is_str action "leave" then
              try_except
                (room_key ← dict_key room_id;
                 st ← get;
                 match room_key with
                 | Some room =>
                     match room_lookup room (rooms st) with
                     | Some _ => raise UnboundLocalError
                     | None => raise RoomNotFound
                     end
                 | None => raise RoomNotFound
                 end)
                (leave_handler room_id sock)
            else raise AttributeError
        | None =>
            emit (Log (LogUnknownIdentifier identifier addr));;
            send_str sock (Template "False" "Unknown identifier")
        end
    | None =>
        emit (Log (LogUnknownIdentifier identifier addr));;
        send_str sock (Template "False" "Unknown identifier")
    end.

(** The handlers at the end of the [try] of [TcpServer.run]. *)
Definition tcp_handler (sock : conn) (addr : address) (e : exn) : option (M unit) :=
  match e with
  | KeyError =>
      Some (emit (Log (LogJsonNotValid addr));;
            send_str sock (Text "Json is not valid"))
  | ValueError =>
      Some (emit (Log (LogNotJsonString addr));;
            send_str sock (Text "Message is not a valid json string"))
  | _ => None
  end.

(** The body of the [try] of [TcpServer.run]: decoding, then [route]
    under the lock. *)
Definition tcp_dispatch {int_str : PyInt} (sock : conn) (addr : address)
    (data : received) : M unit :=
  data ← json_loads data;
  action ← subscript data "action";
  identifier ← subscript_or_none data "identifier";
  room_id ← subscript_or_none data "room_id";
  payload ← subscript_or_none data "payload";
  emit Acquire;;
  try_finally (route sock addr action payload identifier room_id) (emit Release).

(** The part of an iteration of [TcpServer.run] that follows a successful
    [accept]: from [conn.recv] to [conn.close()]. *)
Definition tcp_serve {int_str : PyInt} (sock : conn) (addr : address)
    (data : received) : M unit :=
  try_except (tcp_dispatch sock addr data) (tcp_handler sock addr);;
  emit (Close sock).

(** What one iteration of the loop of [TcpServer.run] meets: the two
    readings of [time.time()] (in the test of the sweep and, after a
    sweep, for the new [time_reference]), and either a timeout of [accept]
    or a connection with the decoding of what it received. *)
Record tcp_input : Type := mkTcpInput {
  clock : Z;
  clock_after_sweep : Z;
  accepted : option (conn * address * received)
}.

(** One iteration of [while self.is_listening] in [TcpServer.run]; the
    result is the new [time_reference]. *)
Definition tcp_iteration {int_str : PyInt} (time_reference : Z) (i : tcp_input)
  : M Z :=
  time_reference ←
    (if bool_decide (time_reference + 60 < clock i)%Z
     then Rooms_remove_empty;; ret (clock_after_sweep i)
     else ret time_reference);
  match accepted i with
  | None => ret time_reference
  | Some (sock, addr, data) => tcp_serve sock addr data;; ret time_reference
  end.

(** [TcpServer.run] over the inputs met until [is_listening] is cleared.
    An exception that leaves an iteration leaves the loop. *)
Fixpoint TcpServer_run {int_str : PyInt} (time_reference : Z)
    (inputs : list tcp_input) : M unit :=
  match inputs with
  | [] => ret tt
  | i :: inputs' =>
      time_reference ← tcp_iteration time_reference i;
      TcpServer_run time_reference inputs'
  end.

(** ** The data plane: [UdpServer] *)

Definition udp_room_handler (e : exn) : option (M unit) :=
  match e with
  | RoomNotFound => Some (emit (Log LogRoomNotFound))
  | _ => None
  end.

Definition udp_handler (addr : address) (e : exn) : option (M unit) :=
  match e with
  | KeyError => Some (emit (Log (LogJsonNotValid addr)))
  | ValueError => Some (emit (Log (LogNotJsonString addr)))
  | _ => None
  end.

(** The statements under the lock in [UdpServer.run]. *)
Definition udp_relay (action identifier payload : json) (room : string) : M unit :=
  if is_str action "send" then
    suppress
      (message ← subscript payload "message";
       Rooms_send identifier room message)
  else if is_str action "sendto" then
    suppress
      (recipients ← subscript payload "recipients";
       message ← subscript payload "message";
       Rooms_sendto identifier room recipients message)
  else ret tt.

(** The inner [try] of [UdpServer.run]: the test of the room, then the
    relay under the lock. *)
Definition udp_locked (action identifier payload room_id : json) : M unit :=
  room_key ← dict_key room_id;
  st ← get;
  match room_key with
  | Some room =>
      match room_lookup room (rooms st) with
      | Some _ =>
          emit Acquire;;
          try_finally (udp_relay action identifier payload room) (emit Release)
      | None => raise RoomNotFound
      end
  | None => raise RoomNotFound
  end.

(** The body of the outer [try] of [UdpServer.run]. *)
Definition udp_dispatch (data : received) : M unit :=
  data ← json_loads data;
  identifier ← subscript_or_none data "identifier";
  room_id ← subscript_or_none data "room_id";
  payload ← subscript_or_none data "payload";
  action ← subscript_or_none data "action";
  try_except (udp_locked action identifier payload room_id) udp_room_handler.

(** The part of an iteration of [UdpServer.run] that follows a successful
    [recvfrom]. *)
Definition udp_serve (addr : address) (data : received) : M unit :=
  try_except (udp_dispatch data) (udp_handler addr).

(** One iteration of the loop of [UdpServer.run]: a timeout of [recvfrom]
    or a datagram with its source address. *)
Definition udp_iteration (i : option (received * address)) : M unit :=
  match i with
  | None => ret tt
  | Some (data, addr) => udp_serve addr data
  end.

(** [UdpServer.run] over the inputs met until [is_listening] is cleared. *)
Fixpoint UdpServer_run (inputs : list (option (received * address))) : M unit :=
  match inputs with
  | [] => ret tt
  | i :: inputs' => udp_iteration i;; UdpServer_run inputs'
  end.

(** ** Properties of traces *)

Definition is_lock_event (ev : event) : bool :=
  match ev with
  | Acquire | Release => true
  | _ => false
  end.

Definition is_call (ev : event) : bool :=
  match ev with
  | Call _ => true
  | _ => false
  end.

Definition is_log (ev : event) : bool :=
  match ev with
  | Log _ => true
  | _ => false
  end.

Definition is_deliver (ev : event) : bool :=
  match ev with
  | Deliver _ _ _ => true
  | _ => false
  end.

Definition is_close (ev : event) : bool :=
  match ev with
  | Close _ => true
  | _ => false
  end.

(** A walk along a trace with the state of the lock, from [held]: [None]
    when the trace acquires the lock while it holds it (the thread would
    block for ever), releases it while it does not hold it, or, when
    [strict] is set, enters a method of the store without holding it. *)
Fixpoint lock_walk (strict held : bool) (t : list event) : option bool :=
  match t with
  | [] => Some held
  | Acquire :: t' => if held then None else lock_walk strict true t'
  | Release :: t' => if held then lock_walk strict false t' else None
  | Call _ :: t' => if strict && negb held then None else lock_walk strict held t'
  | _ :: t' => lock_walk strict held t'
  end.

(** Acquisitions and releases alternate. *)
Definition lock_run : bool → list event → option bool := lock_walk false.

(** Moreover every call of the store is made under the lock. *)
Definition lock_discipline : bool → list event → option bool := lock_walk true.

(** From a free lock, [m] leaves the lock free on every path. *)
Definition orderly (strict : bool) {A} (m : M A) : Prop :=
  ∀ st, lock_walk strict false (trace_of (m st)) = Some false.

(** The events that do not touch the lock, and those that a [strict]
    walk accepts with the lock free. *)
Definition no_lock (ev : event) : Prop := is_lock_event ev = false.

Definition quiet (strict : bool) (ev : event) : Prop :=
  is_lock_event ev = false ∧ (strict = true → is_call ev = false).

Definition no_close (ev : event) : Prop := is_close ev = false.

(** The value a listener reads for the key [k] of a decoded envelope:
    [None] for an absent key. *)
Definition field (k : string) (data : json) : json :=
  match data with
  | JObj kvs => default JNull (obj_get k kvs)
  | _ => JNull
  end.

(** The actions [route] has a branch for. *)
Definition known_action (action : json) : bool :=
  is_str action "register" || is_str action "join" || is_str action "autojoin"
  || is_str action "get_rooms" || is_str action "create" || is_str action "leave".

(** The envelope of a control-plane request: a decoded object with its
    [action]. *)
Definition envelope_action (data : json) : option json :=
  match data with
  | JObj kvs => obj_get "action" kvs
  | _ => None
  end.

Definition is_object (data : json) : bool :=
  match data with
  | JObj _ => true
  | _ => false
  end.

(** The values Python can hash, that is, look up in a dict. *)
Definition hashable (v : json) : bool :=
  match v with
  | JArr _ | JObj _ => false
  | _ => true
  end.

(** The room a decoded [room_id] names in the store, if any. *)
Definition names_room (st : Rooms) (room_id : json) : option string :=
  match room_id with
  | JStr room =>
      match room_lookup room (rooms st) with
      | Some _ => Some room
      | None => None
      end
  | _ => None
  end.

(** The decoded [identifier] is the session identifier of a client. *)
Definition registered (st : Rooms) (identifier : json) : bool :=
  match identifier with
  | JStr ident => bool_decide (is_Some (players st !! ident))
  | _ => false
  end.

(** What the data plane may do for a datagram that carries
    [identifier]: nothing is written on a connection, and a datagram
    goes only to the stored address of a registered client other than
    [identifier]. *)
Definition udp_event (st : Rooms) (identifier : json) (ev : event) : Prop :=
  match ev with
  | Send _ _ | Close _ => False
  | Deliver recipient to _ =>
      JStr recipient ≠ identifier
      ∧ ∃ p, players st !! recipient = Some p ∧ to = p_udp_addr p
  | _ => True
  end.

(** The value decoded, if any. *)
Definition decoded (data : received) : option json :=
  match data with
  | Decoded v => Some v
  | NotJson | TooDeep => None
  end.

(** The identifier a datagram carries. *)
Definition datagram_identifier (data : received) : json :=
  match data with
  | Decoded d => field "identifier" d
  | NotJson | TooDeep => JNull
  end.

(** The result [x] after the events [t]. *)
Definition after {A} (t : list event) (x : Rooms * list event * outcome A)
  : Rooms * list event * outcome A :=
  (store_of x, t ++ trace_of x, outcome_of x).

(** ** The store across the calls of a listener *)

Inductive store_call : Type :=
| CRegister (addr : address) (hint : Z)
| CCreate (name : json)
| CJoin (identifier : string) (room_id : option string)
| CLeave (identifier room_id : string)
| CSend (identifier : json) (room_id : string) (message : json)
| CSendto (identifier : json) (room_id : string) (recipients message : json)
| CRemoveEmpty.

(** A call of a method of the store, its result dropped. *)
Definition perform (c : store_call) : M unit :=
  match c with
  | CRegister addr hint => Rooms_register addr hint;; ret tt
  | CCreate name => Rooms_create name;; ret tt
  | CJoin identifier room_id => Rooms_join identifier room_id;; ret tt
  | CLeave identifier room_id => Rooms_leave identifier room_id
  | CSend identifier room_id message => Rooms_send identifier room_id message
  | CSendto identifier room_id recipients message =>
      Rooms_sendto identifier room_id recipients message
  | CRemoveEmpty => Rooms_remove_empty
  end.

(** The states of the store of a server started with capacity [c]: the
    store of [Rooms(c)], and the store after a call of one of its methods,
    after an iteration of the control-plane loop or after an iteration of
    the data-plane loop, whether it ended in an exception or not. *)
Inductive reachable {int_str : PyInt} (c : nat) : Rooms → Prop :=
| reach_init : reachable c (Rooms_init c)
| reach_call st call :
    reachable c st → reachable c (store_of (perform call st))
| reach_tcp st time_reference i :
    reachable c st → reachable c (store_of (tcp_iteration time_reference i st))
| reach_udp st i :
    reachable c st → reachable c (store_of (udp_iteration i st)).

(** The capacity invariant on one room and on the store. *)
Definition room_ok (c : nat) (r : Room) : Prop :=
  r_capacity r = c ∧ size (r_players r) ≤ c.

Definition store_ok (c : nat) (st : Rooms) : Prop :=
  capacity st = c ∧ Forall (λ kr, room_ok c kr.2) (rooms st).

(** [m] keeps the property [I] of the store, on every path, and emits
    only events that satisfy [P]. *)
Definition respects (I : Rooms → Prop) (P : event → Prop) {A} (m : M A) : Prop :=
  ∀ st, I st → I (store_of (m st)) ∧ Forall P (trace_of (m st)).

(** What a property of the store and of the events needs from the
    methods of the store to hold along a listener. *)
Record store_respects (I : Rooms → Prop) (P : event → Prop) : Prop := {
  sr_register addr hint : respects I P (Rooms_register addr hint);
  sr_create name : respects I P (Rooms_create name);
  sr_join identifier room_id : respects I P (Rooms_join identifier room_id);
  sr_leave identifier room_id : respects I P (Rooms_leave identifier room_id);
  sr_remove_empty : respects I P Rooms_remove_empty;
  sr_send identifier room_id message :
    respects I P (Rooms_send identifier room_id message);
  sr_sendto identifier room_id recipients message :
    respects I P (Rooms_sendto identifier room_id recipients message)
}.

(** ** Sample stores and requests *)

(** A sample of [PyInt], to apply the theorems to: it reads the strings
    of ASCII digits and rejects every other string (Python's [int]
    accepts more of them). *)
Definition digit_of (c : ascii) : option Z :=
  let n := nat_of_ascii c in
  if ((48 <=? n) && (n <=? 57))%nat then Some (Z.of_nat (n - 48)) else None.

Fixpoint digits_value (s : string) (acc : Z) : option Z :=
  match s with
  | EmptyString => Some acc
  | String c s' =>
      match digit_of c with
      | Some d => digits_value s' (10 * acc + d)%Z
      | None => None
      end
  end.

Definition ascii_digits : PyInt :=
  λ s, match s with
       | EmptyString => None
       | _ => digits_value s 0
       end.

Definition host_a : address := ("10.0.0.1", 4000%Z).

Definition host_b : address := ("10.0.0.2", 4100%Z).

(** Two clients in one room of two places: client "0" registered from
    [host_a], client "1" from [host_b]. *)
Definition two_hosts_store : Rooms :=
  store_of (perform (CJoin "1" (Some "0"))
    (store_of (perform (CRegister host_b 4100)
      (store_of (perform (CJoin "0" (Some "0"))
        (store_of (perform (CCreate (JStr "lobby"))
          (store_of (perform (CRegister host_a 4000) (Rooms_init 2)))))))))).

(** A server of capacity 1 after a registration, the creation of a room
    by the registered client (who joins it) and a second registration. *)
Definition full_room_store : Rooms :=
  store_of (perform (CRegister host_a 4001)
    (store_of (perform (CJoin "0" (Some "0"))
      (store_of (perform (CCreate (JStr "lobby"))
        (store_of (perform (CRegister host_a 4000) (Rooms_init 1)))))))).

(** An iteration of the control-plane loop 61 seconds after the last
    sweep, in which [accept] times out. *)
Definition sweep_due : tcp_input :=
  {| clock := 61; clock_after_sweep := 61; accepted := None |}.

(** A session of four connections: a registration, the creation of a
    room, a second registration, and a join of that room by the second
    client. *)
Definition register_request : json :=
  JObj [("action", JStr "register"); ("payload", JNum 4000)].

Definition create_request : json :=
  JObj [("action", JStr "create"); ("identifier", JStr "0");
        ("payload", JStr "lobby")].

Definition join_request : json :=
  JObj [("action", JStr "join"); ("identifier", JStr "1");
        ("payload", JStr "0"); ("room_id", JStr "0")].

Definition session : list tcp_input :=
  map (λ d, {| clock := 0; clock_after_sweep := 0;
               accepted := Some (7, host_a, Decoded d) |})
    [register_request; create_request; register_request; join_request].

(** Requests: a registration without payload, a join without
    identifier, a leave and an unknown action by the member of
    [full_room_store]. *)
Definition register_no_payload : json := JObj [("action", JStr "register")].

Definition join_no_identifier : json :=
  JObj [("action", JStr "join"); ("payload", JStr "0"); ("room_id", JStr "0")].

Definition leave_request : json :=
  JObj [("action", JStr "leave"); ("identifier", JStr "0"); ("room_id", JStr "0")].

Definition dance_request : json :=
  JObj [("action", JStr "dance"); ("identifier", JStr "0")].

(** The store after the same session with rooms of two places, where the
    join succeeds, and a relay by the second client to the first. *)
Definition pair_store : Rooms :=
  store_of (perform (CJoin "1" (Some "0"))
    (store_of (perform (CRegister host_a 4000)
      (store_of (perform (CJoin "0" (Some "0"))
        (store_of (perform (CCreate (JStr "lobby"))
          (store_of (perform (CRegister host_a 4000) (Rooms_init 2)))))))))).

Definition hello_datagram : json :=
  JObj [("action", JStr "send"); ("identifier", JStr "1"); ("room_id", JStr "0");
        ("payload", JObj [("message", JStr "hi")])].

(** A relay asked by an identifier that no client has, to the room of
    [full_room_store]. *)
Definition ghost_datagram : json :=
  JObj [("action", JStr "send"); ("identifier", JStr "9"); ("room_id", JStr "0");
        ("payload", JObj [("message", JStr "hi")])].

(** ** The operator console: [main_loop] *)








(** ** Predicates on what the listeners do *)

Definition is_send (ev : event) : bool :=
  match ev with
  | Send _ _ => true
  | _ => false
  end.

(** The messages written on connections along a trace. *)
Definition replies (t : list event) : list event :=
  filter (λ ev, is_send ev = true) t.

Definition silent (ev : event) : Prop := is_send ev = false.

(** [m] writes at most one message, and none on a path that raises. *)
Definition replies_once {A} (m : M A) : Prop :=
  ∀ st,
    match outcome_of (m st) with
    | Ret _ => List.length (replies (trace_of (m st))) ≤ 1
    | Raise _ => replies (trace_of (m st)) = []
    end.

(** The events on connections concern [sock] only. *)
Definition on_conn (sock : conn) (ev : event) : Prop :=
  match ev with
  | Send s _ | Close s => s = sock
  | _ => True
  end.

(** The events of the control plane: of the methods of the store,
    [route] calls [register], [create] and [join] and the loop calls
    [remove_empty]; no datagram is sent. *)
Definition route_event (ev : event) : Prop :=
  match ev with
  | Call OpRegister | Call OpCreate | Call OpJoin => True
  | Call _ | Deliver _ _ _ => False
  | _ => True
  end.

Definition control_event (ev : event) : Prop :=
  match ev with
  | Call OpRemoveEmpty => True
  | _ => route_event ev
  end.

(** The events of the data plane: the two relay methods, their
    deliveries, the lock and the log. *)
Definition relay_event (ev : event) : Prop :=
  match ev with
  | Call OpSend | Call OpSendto => True
  | Call _ | Send _ _ | Close _ => False
  | _ => True
  end.

(** [v[k]] succeeds. *)
Definition has_key (k : string) (v : json) : bool :=
  match v with
  | JObj kvs => bool_decide (is_Some (obj_get k kvs))
  | _ => false
  end.

(** The arguments of the relay call can be evaluated: the action is
    [send] or [sendto] and the payload has the keys read for it. *)
Definition relay_args_ok (action payload : json) : bool :=
  if is_str action "send" then has_key "message" payload
  else if is_str action "sendto" then
    has_key "recipients" payload && has_key "message" payload
  else false.

(** The datagrams that end the data plane, with the exception that
    leaves the loop: [RecursionError] from the decoder, [TypeError] from
    the subscripts of a value that is not an object and from the test of
    a room that is not hashable. *)
Definition fatal_datagram (data : received) : option exn :=
  match data with
  | Decoded d =>
      if negb (is_object d) || negb (hashable (field "room_id" d))
      then Some TypeError else None
  | NotJson => None
  | TooDeep => Some RecursionError
  end.

(** More requests. *)
Definition no_action_request : json := JObj [("identifier", JStr "0")].

Definition register_word_request : json :=
  JObj [("action", JStr "register"); ("payload", JStr "port")].


Definition list_identifier_request : json :=
  JObj [("action", JStr "get_rooms"); ("identifier", JArr [JStr "0"])].

Definition join_nowhere_request : json :=
  JObj [("action", JStr "join"); ("identifier", JStr "0"); ("payload", JStr "5")].

Definition ping_datagram : json :=
  JObj [("action", JStr "ping"); ("identifier", JStr "1"); ("room_id", JStr "0")].

(** A connection that brings the leave request, and one that brings a
    registration 30 seconds later. *)
Definition leave_connection : tcp_input :=
  {| clock := 0; clock_after_sweep := 0;
     accepted := Some (7, host_a, Decoded leave_request) |}.

(** A datagram whose room is given as a list. *)
Definition list_room_datagram : json :=
  JObj [("action", JStr "send"); ("identifier", JStr "1");
        ("room_id", JArr [JStr "0"])].


(** Unfolding of the monad in a goal. *)
Ltac run_m :=
  unfold mbind, M_bind, mret, M_ret, bind, ret, raise, emit, get, put,
    try_except, try_finally, suppress, store_of, trace_of, outcome_of in *;
  simpl in *.

(** * Properties *)

(** ** The model at work *)

(** [int] on the values of JSON: a float is truncated towards zero
    ([-1759.25] is [-7037 * 2^-2]), the booleans are 1 and 0, and the
    values that are no numbers raise. *)
Example py_int_values `{PyInt} :
  py_int (JFloat (S754_finite true 7037 (-2))) = Ret (-1759)%Z
  ∧ py_int (JFloat (S754_finite false 3 5)) = Ret 96%Z
  ∧ py_int (JFloat (S754_infinity false)) = Raise OverflowError
  ∧ py_int (JFloat S754_nan) = Raise ValueError
  ∧ py_int (JBool true) = Ret 1%Z
  ∧ py_int JNull = Raise TypeError
  ∧ py_int (JArr []) = Raise TypeError.
Proof. repeat split; reflexivity. Qed.

(** With rooms of one place, the creator fills the room and the join of
    the second client is refused; the store is [full_room_store]. *)
Example session_trace :
  TcpServer_run (int_str := ascii_digits) 0 session (Rooms_init 1)
  = (full_room_store,
     [Acquire; Call OpRegister; Send 7 (Envelope true (JStr "0")); Release; Close 7;
      Acquire; Call OpCreate; Call OpJoin; Send 7 (Envelope true (JStr "0"));
      Release; Close 7;
      Acquire; Call OpRegister; Send 7 (Envelope true (JStr "1")); Release; Close 7;
      Acquire; Call OpJoin; Send 7 (Envelope false (JStr "0")); Release; Close 7],
     Ret tt).
Proof. vm_compute. reflexivity. Qed.

(** The same session with rooms of two places ends in [pair_store]. *)
Example session_store :
  store_of (TcpServer_run (int_str := ascii_digits) 0 session (Rooms_init 2))
  = pair_store.
Proof. vm_compute. reflexivity. Qed.

(** The relay of the second client reaches the first one, at the address
    stored at its registration. *)
Example relay_trace :
  udp_serve host_b (Decoded hello_datagram) pair_store
  = (pair_store, [Acquire; Call OpSend; Deliver "0" host_a (JStr "hi"); Release],
     Ret tt).
Proof. vm_compute. reflexivity. Qed.

(** ** The combinators of the monad *)

Section Respects.
Context (I : Rooms → Prop) (P : event → Prop).

Lemma respects_ret {A} (a : A) : respects I P (mret a).
Proof. intros st HI. split; [exact HI | constructor]. Qed.

Lemma respects_raise {A} e : respects I P (@raise A e).
Proof. intros st HI. split; [exact HI | constructor]. Qed.

Lemma respects_get : respects I P get.
Proof. intros st HI. split; [exact HI | constructor]. Qed.

Lemma respects_emit ev : P ev → respects I P (emit ev).
Proof. intros Hev st HI. split; [exact HI | by repeat constructor]. Qed.

Lemma respects_bind {A B} (m : M A) (f : A → M B) :
  respects I P m → (∀ a, respects I P (f a)) → respects I P (m ≫= f).
Proof.
  intros Hm Hf st HI. unfold mbind, M_bind, bind.
  destruct (Hm st HI) as [HI1 HP1].
  destruct (m st) as [[st1 t1] [a|e]]; simpl in *; [|done].
  destruct (Hf a st1 HI1) as [HI2 HP2].
  destruct (f a st1) as [[st2 t2] r]; simpl in *.
  split; [done | by apply Forall_app].
Qed.

Lemma respects_try_except {A} (m : M A) handler :
  respects I P m →
  (∀ e h, handler e = Some h → respects I P h) →
  respects I P (try_except m handler).
Proof.
  intros Hm Hh st HI. unfold try_except.
  destruct (Hm st HI) as [HI1 HP1].
  destruct (m st) as [[st1 t1] [a|e]]; simpl in *; [done|].
  destruct (handler e) as [h|] eqn:He; [|done].
  destruct (Hh e h He st1 HI1) as [HI2 HP2].
  destruct (h st1) as [[st2 t2] r]; simpl in *.
  split; [done | by apply Forall_app].
Qed.

Lemma respects_try_finally {A} (m : M A) fin :
  respects I P m → respects I P fin → respects I P (try_finally m fin).
Proof.
  intros Hm Hfin st HI. unfold try_finally.
  destruct (Hm st HI) as [HI1 HP1].
  destruct (m st) as [[st1 t1] r]; simpl in *.
  destruct (Hfin st1 HI1) as [HI2 HP2].
  destruct (fin st1) as [[st2 t2] r2]; simpl in *.
  split; [done | by apply Forall_app].
Qed.

Lemma respects_suppress (m : M unit) :
  respects I P m → respects I P (suppress m).
Proof.
  intros Hm. apply respects_try_except; [done|].
  intros e h [= <-]. apply respects_ret.
Qed.
End Respects.

(** ** The capacity invariant *)

Lemma room_update_ok c room_id f l :
  Forall (λ kr : string * Room, room_ok c kr.2) l →
  (∀ r, room_lookup room_id l = Some r → room_ok c r → room_ok c (f r)) →
  Forall (λ kr : string * Room, room_ok c kr.2) (room_update room_id f l).
Proof.
  induction l as [|[k r] l IH]; simpl; intros Hl Hf; [constructor|].
  inversion_clear Hl as [|? ? Hr Hl'].
  case_bool_decide; constructor; simpl; auto.
Qed.

Lemma add_player_ok c identifier r :
  room_ok c r → size (r_players r) ≠ r_capacity r → room_ok c (add_player identifier r).
Proof.
  intros [Hc Hs] Hne. split; [done|]. simpl.
  rewrite size_union_alt, size_singleton.
  assert (size (r_players r ∖ {[identifier]}) ≤ size (r_players r)) as Hsub.
  { apply subseteq_size, subseteq_difference_l. done. }
  lia.
Qed.

Lemma remove_player_ok c identifier r :
  room_ok c r → room_ok c (remove_player identifier r).
Proof.
  intros [Hc Hs]. split; [done|]. simpl.
  assert (size (r_players r ∖ {[identifier]}) ≤ size (r_players r)) as Hsub.
  { apply subseteq_size, subseteq_difference_l. done. }
  lia.
Qed.

Section StoreOk.
Context (c : nat).

Local Abbreviation keeps m := (respects (store_ok c) (λ _, True) m).

Lemma register_ok addr hint : keeps (Rooms_register addr hint).
Proof. intros st [Hc Hr]. run_m. split; [done | apply Forall_true; done]. Qed.

Lemma new_room_ok name : keeps (new_room name).
Proof.
  intros st [Hc Hr]. run_m. split; [|constructor].
  split; [done|]. simpl. apply Forall_app. split; [done|].
  repeat constructor; [done|]. cbn [snd r_players].
  rewrite size_empty. lia.
Qed.

Lemma create_ok name : keeps (Rooms_create name).
Proof.
  unfold Rooms_create. apply respects_bind; [by apply respects_emit|].
  intros _. apply new_room_ok.
Qed.

Lemma join_room_ok identifier room_id : keeps (join_room identifier room_id).
Proof.
  intros st [Hc Hr]. unfold join_room. run_m.
  destruct (room_lookup room_id (rooms st)) as [r|] eqn:Hl; simpl;
    [|split; [done | constructor]].
  case_bool_decide as Hsz; simpl; (split; [|constructor]); [done|].
  split; [done|]. simpl. apply room_update_ok; [done|].
  intros r' Hr' Hok. rewrite Hl in Hr'. injection Hr' as <-.
  by apply add_player_ok.
Qed.

Lemma join_ok identifier room_id : keeps (Rooms_join identifier room_id).
Proof.
  unfold Rooms_join. apply respects_bind; [by apply respects_emit|]. intros _.
  destruct room_id as [room_id|]; [apply join_room_ok|].
  apply respects_bind; [apply respects_get|]. intros st.
  case_bool_decide; [|apply respects_raise].
  destruct (first_free (rooms st)); [apply join_room_ok|].
  apply respects_bind; [apply new_room_ok|]. intros ?. apply join_room_ok.
Qed.

Lemma leave_ok identifier room_id : keeps (Rooms_leave identifier room_id).
Proof.
  intros st [Hc Hr]. unfold Rooms_leave. run_m.
  destruct (room_lookup room_id (rooms st)) as [r|] eqn:Hl; simpl;
    [|split; [done | by repeat constructor]].
  case_bool_decide; simpl; (split; [|by repeat constructor]); [|done].
  split; [done|]. simpl. apply room_update_ok; [done|].
  intros r' _ Hok. by apply remove_player_ok.
Qed.

Lemma remove_empty_ok : keeps Rooms_remove_empty.
Proof.
  intros st [Hc Hr]. unfold Rooms_remove_empty. run_m.
  split; [|by repeat constructor]. split; [done|]. simpl.
  apply Forall_forall. intros kr [_ Hin]%list_elem_of_filter.
  by eapply Forall_forall in Hr.
Qed.

Lemma deliver_ok st members message : keeps (deliver st members message).
Proof.
  induction members as [|m members IH]; simpl; [apply respects_ret|].
  apply respects_bind; [|done].
  destruct (players st !! m); [by apply respects_emit | apply respects_ret].
Qed.

Lemma send_ok identifier room_id message :
  keeps (Rooms_send identifier room_id message).
Proof.
  unfold Rooms_send. apply respects_bind; [by apply respects_emit|]. intros _.
  apply respects_bind; [apply respects_get|]. intros st.
  destruct (room_lookup _ _); [|apply respects_raise].
  destruct (sender_in_room _ _ _); [apply deliver_ok | apply respects_raise].
Qed.

Lemma sendto_ok identifier room_id recipients message :
  keeps (Rooms_sendto identifier room_id recipients message).
Proof.
  unfold Rooms_sendto. apply respects_bind; [by apply respects_emit|]. intros _.
  apply respects_bind; [apply respects_get|]. intros st.
  destruct (room_lookup _ _); [|apply respects_raise].
  destruct (sender_in_room _ _ _); [apply deliver_ok | apply respects_raise].
Qed.
End StoreOk.

Lemma store_ok_respected c : store_respects (store_ok c) (λ _, True).
Proof.
  split; intros.
  - apply register_ok.
  - apply create_ok.
  - apply join_ok.
  - apply leave_ok.
  - apply remove_empty_ok.
  - apply send_ok.
  - apply sendto_ok.
Qed.

(** The methods of the store emit their [Call] and the deliveries of a
    relay, nothing else. *)
Lemma store_events_respected (P : event → Prop) :
  (∀ op, P (Call op)) → (∀ r a m, P (Deliver r a m)) →
  store_respects (λ _, True) P.
Proof.
  intros Hcall Hdel.
  assert (∀ st', respects (λ _, True) P (put st')) as Hput.
  { intros st' st _. split; [done | constructor]. }
  assert (∀ st members message,
            respects (λ _, True) P (deliver st members message)) as Hdeliver.
  { intros st members message. induction members as [|m members IH]; simpl;
      [apply respects_ret|].
    apply respects_bind; [|done].
    destruct (players st !! m); [by apply respects_emit | apply respects_ret]. }
  split; intros;
    unfold Rooms_register, Rooms_create, Rooms_join, Rooms_leave,
      Rooms_remove_empty, Rooms_send, Rooms_sendto, join_room, new_room;
    repeat first
      [ apply respects_ret | apply respects_raise | apply respects_get
      | apply Hput | apply Hdeliver
      | apply respects_emit; solve [auto]
      | apply respects_bind; [|intros ?]
      | case_match ].
Qed.

Section Listeners.
Context `{PyInt}.
Context (I : Rooms → Prop) (P : event → Prop).
Context (Hstore : store_respects I P).
Context (Hsend : ∀ sock m, P (Send sock m)) (Hlog : ∀ m, P (Log m)).

Lemma send_tcp_respects success data sock :
  respects I P (send_tcp success data sock).
Proof. apply respects_emit, Hsend. Qed.

Lemma send_str_respects sock t : respects I P (send_str sock t).
Proof. apply respects_raise. Qed.

Lemma tcp_handler_respects sock addr e h :
  tcp_handler sock addr e = Some h → respects I P h.
Proof.
  intros Hh. destruct e; simplify_eq/=;
    (apply respects_bind; [apply respects_emit, Hlog | intros ?; apply send_str_respects]).
Qed.

Lemma subscript_respects d k : respects I P (subscript d k).
Proof.
  unfold subscript. destruct d; try apply respects_raise.
  destruct (obj_get k kvs); [apply respects_ret | apply respects_raise].
Qed.

Lemma subscript_or_none_respects d k : respects I P (subscript_or_none d k).
Proof.
  apply respects_try_except; [apply subscript_respects|].
  intros [] h [= <-]. apply respects_ret.
Qed.

Lemma dict_key_respects v : respects I P (dict_key v).
Proof. destruct v; simpl; first [apply respects_ret | apply respects_raise]. Qed.

Lemma lift_respects {A} (o : outcome A) : respects I P (lift o).
Proof. destruct o; [apply respects_ret | apply respects_raise]. Qed.

Lemma json_loads_respects data : respects I P (json_loads data).
Proof. destruct data; first [apply respects_ret | apply respects_raise]. Qed.

Lemma route_respects sock addr action payload identifier room_id :
  respects I P (route sock addr action payload identifier room_id).
Proof.
  destruct Hstore.
  assert (∀ e h, join_handler room_id sock e = Some h → respects I P h) as Hjoin.
  { intros [] h [= <-]; apply send_tcp_respects. }
  assert (∀ e h, leave_handler room_id sock e = Some h → respects I P h) as Hleave.
  { intros [] h [= <-]; apply send_tcp_respects. }
  unfold route.
  repeat first
    [ solve [auto]
    | apply respects_ret | apply respects_raise | apply respects_get
    | apply send_tcp_respects | apply send_str_respects
    | apply lift_respects | apply dict_key_respects
    | apply respects_emit; solve [auto]
    | apply respects_bind; [|intros ?]
    | apply respects_try_except; [|done]
    | case_match ].
Qed.

Lemma udp_relay_respects action identifier payload room :
  (∀ message, respects I P (Rooms_send identifier room message)) →
  (∀ recipients message,
     respects I P (Rooms_sendto identifier room recipients message)) →
  respects I P (udp_relay action identifier payload room).
Proof.
  intros Hsend_room Hsendto_room. unfold udp_relay.
  repeat first
    [ solve [auto]
    | apply respects_ret | apply subscript_respects | apply respects_suppress
    | apply respects_bind; [|intros ?]
    | case_match ].
Qed.
End Listeners.

(** The iterations of the two loops keep what the methods of the store
    keep. *)
Section Invariant.
Context `{PyInt}.
Context (I : Rooms → Prop) (Hstore : store_respects I (λ _, True)).

Local Abbreviation keeps m := (respects I (λ _, True) m).

Lemma perform_keeps call : keeps (perform call).
Proof.
  destruct Hstore. destruct call; simpl; auto;
    (apply respects_bind; [auto | intros ?; apply respects_ret]).
Qed.

Lemma tcp_serve_keeps sock addr data : keeps (tcp_serve sock addr data).
Proof.
  unfold tcp_serve.
  apply respects_bind; [|intros ?; by apply respects_emit].
  apply respects_try_except.
  - repeat first
      [ apply json_loads_respects | apply subscript_respects
      | apply subscript_or_none_respects
      | apply route_respects; done
      | apply respects_emit; done
      | apply respects_try_finally
      | apply respects_bind; [|intros ?] ].
  - intros e h Hh. eapply tcp_handler_respects; [|exact Hh]. done.
Qed.

Lemma tcp_iteration_keeps time_reference i : keeps (tcp_iteration time_reference i).
Proof.
  unfold tcp_iteration. apply respects_bind.
  - case_bool_decide; [|apply respects_ret].
    apply respects_bind; [apply Hstore | intros ?; apply respects_ret].
  - intros t. destruct (accepted i) as [[[sock addr] data]|]; [|apply respects_ret].
    apply respects_bind; [apply tcp_serve_keeps | intros ?; apply respects_ret].
Qed.

Lemma udp_serve_keeps addr data : keeps (udp_serve addr data).
Proof.
  unfold udp_serve. apply respects_try_except.
  - repeat first
      [ apply json_loads_respects | apply subscript_or_none_respects
      | apply dict_key_respects | apply respects_get | apply respects_raise
      | apply udp_relay_respects; intros; apply Hstore
      | apply respects_emit; done
      | apply respects_try_finally
      | apply respects_try_except;
          [|intros [] ? [= <-]; by apply respects_emit]
      | apply respects_bind; [|intros ?]
      | case_match ].
  - intros [] h [= <-]; by apply respects_emit.
Qed.

Lemma udp_iteration_keeps i : keeps (udp_iteration i).
Proof.
  destruct i as [[data addr]|]; [apply udp_serve_keeps | apply respects_ret].
Qed.
End Invariant.

Lemma reachable_store_ok `{PyInt} c st : reachable c st → store_ok c st.
Proof.
  induction 1 as [|st call _ IH|st t i _ IH|st i _ IH].
  - split; [done | constructor].
  - by apply (perform_keeps _ (store_ok_respected c)).
  - by apply (tcp_iteration_keeps _ (store_ok_respected c)).
  - by apply (udp_iteration_keeps _ (store_ok_respected c)).
Qed.

Lemma room_lookup_elem room_id l r :
  room_lookup room_id l = Some r → (room_id, r) ∈ l.
Proof.
  induction l as [|[k r'] l IH]; simpl; [done|].
  case_bool_decide; [intros [= <-]; subst; left | right; auto].
Qed.

(** A join of a full room: the store raises [RoomFull] at once. *)
Lemma join_full identifier room_id r st :
  room_lookup room_id (rooms st) = Some r →
  size (r_players r) = r_capacity r →
  Rooms_join identifier (Some room_id) st = (st, [Call OpJoin], Raise RoomFull).
Proof.
  intros Hl Hs. unfold Rooms_join, join_room. run_m. rewrite Hl.
  by rewrite bool_decide_true.
Qed.

(** The [join] branch of [route] on a full room. *)
Lemma route_join_full `{PyInt} sock addr ident client room_id room r st :
  players st !! ident = Some client →
  room_lookup room (rooms st) = Some r →
  size (r_players r) = r_capacity r →
  route sock addr (JStr "join") (JStr room) (JStr ident) room_id st
  = (st, [Call OpJoin; Send sock (Envelope false room_id)], Ret tt).
Proof.
  intros Hp Hl Hs. unfold route. simpl.
  unfold mbind, M_bind, bind at 1. simpl.
  unfold bind at 1. simpl. rewrite Hp. simpl.
  unfold try_except.
  unfold bind at 1. simpl. unfold bind at 1. simpl. rewrite Hl.
  unfold bind at 1. rewrite (join_full _ _ _ _ Hl Hs). done.
Qed.

(** C1.  In every reachable state of the store of a server started with
    capacity [c], every room has capacity [c] and at most [c] members;
    and a join of a room that has [c] members raises [RoomFull] and
    leaves the store as it was, which the [join] branch of the control
    plane answers with a failure reply. *)
Theorem capacity_invariant `{PyInt} (c : nat) (st : Rooms) :
  reachable c st →
  (∀ kr, kr ∈ rooms st → r_capacity kr.2 = c ∧ size (r_players kr.2) ≤ c) ∧
  (∀ identifier room_id r,
     room_lookup room_id (rooms st) = Some r →
     size (r_players r) = c →
     Rooms_join identifier (Some room_id) st = (st, [Call OpJoin], Raise RoomFull)) ∧
  (∀ sock addr ident client room_id room r,
     players st !! ident = Some client →
     room_lookup room (rooms st) = Some r →
     size (r_players r) = c →
     route sock addr (JStr "join") (JStr room) (JStr ident) room_id st
     = (st, [Call OpJoin; Send sock (Envelope false room_id)], Ret tt)).
Proof.
  intros [Hc Hrooms]%reachable_store_ok.
  assert (∀ room_id r, room_lookup room_id (rooms st) = Some r → room_ok c r) as Hok.
  { intros room_id r Hl%room_lookup_elem.
    by apply (proj1 (Forall_forall _ _) Hrooms (room_id, r)). }
  split; [|split].
  - intros kr Hin. by apply (proj1 (Forall_forall _ _) Hrooms kr).
  - intros identifier room_id r Hl Hs. apply (join_full _ _ r); [done|].
    destruct (Hok _ _ Hl). congruence.
  - intros sock addr ident client room_id room r Hp Hl Hs.
    apply (route_join_full _ _ _ client _ _ r); [done..|].
    destruct (Hok _ _ Hl). congruence.
Qed.

Lemma capacity_invariant_witness :
  reachable (int_str := ascii_digits) 1 full_room_store ∧
  (∃ r, room_lookup "0" (rooms full_room_store) = Some r ∧ size (r_players r) = 1) ∧
  Rooms_join "1" (Some "0") full_room_store
  = (full_room_store, [Call OpJoin], Raise RoomFull).
Proof.
  assert (reachable (int_str := ascii_digits) 1 full_room_store) as Hreach.
  { unfold full_room_store. repeat apply reach_call. apply reach_init. }
  assert (∃ r, room_lookup "0" (rooms full_room_store) = Some r
               ∧ size (r_players r) = 1) as (r & Hl & Hs).
  { eexists. split; vm_compute; reflexivity. }
  split; [exact Hreach|]. split; [by exists r|].
  destruct (capacity_invariant 1 full_room_store Hreach) as (_ & Hjoin & _).
  exact (Hjoin "1" "0" r Hl Hs).
Defined.

(** ** The lock *)

Lemma lock_walk_app strict held t1 t2 :
  lock_walk strict held (t1 ++ t2)
  = lock_walk strict held t1 ≫= λ held', lock_walk strict held' t2.
Proof.
  revert held. induction t1 as [|ev t1 IH]; intros held; simpl; [done|].
  destruct ev, held, strict; simpl; auto.
Qed.

Lemma lock_walk_quiet strict held t :
  Forall (quiet strict) t → lock_walk strict held t = Some held.
Proof.
  induction 1 as [|ev t [Hl Hc] _ IH]; simpl; [done|].
  destruct ev; try done. destruct strict; simpl; [|done].
  by specialize (Hc eq_refl).
Qed.

Lemma lock_walk_held strict t :
  Forall no_lock t → lock_walk strict true t = Some true.
Proof.
  induction 1 as [|ev t Hl _ IH]; simpl; [done|].
  destruct ev; try done. by rewrite andb_false_r.
Qed.

Lemma quiet_no_lock strict ev : quiet strict ev → no_lock ev.
Proof. by intros [? _]. Qed.

Section Orderly.
Context `{PyInt}.
Context (strict : bool).

Lemma orderly_quiet {A} (m : M A) :
  respects (λ _, True) (quiet strict) m → orderly strict m.
Proof. intros Hm st. apply lock_walk_quiet. by apply Hm. Qed.

Lemma orderly_bind {A B} (m : M A) (f : A → M B) :
  orderly strict m → (∀ a, orderly strict (f a)) → orderly strict (m ≫= f).
Proof.
  intros Hm Hf st. specialize (Hm st). unfold mbind, M_bind, bind, trace_of in *.
  destruct (m st) as [[st1 t1] [a|e]]; simpl in *; [|done].
  specialize (Hf a st1). destruct (f a st1) as [[st2 t2] r]; simpl in *.
  by rewrite lock_walk_app, Hm.
Qed.

Lemma orderly_try_except {A} (m : M A) handler :
  orderly strict m →
  (∀ e h, handler e = Some h → orderly strict h) →
  orderly strict (try_except m handler).
Proof.
  intros Hm Hh st. specialize (Hm st). unfold try_except, trace_of in *.
  destruct (m st) as [[st1 t1] [a|e]]; simpl in *; [done|].
  destruct (handler e) as [h|] eqn:He; [|done].
  specialize (Hh e h He st1). destruct (h st1) as [[st2 t2] r]; simpl in *.
  by rewrite lock_walk_app, Hm.
Qed.

(** [self.lock.acquire(); try: m finally: self.lock.release()] *)
Lemma orderly_locked {A} (m : M A) :
  respects (λ _, True) no_lock m →
  orderly strict (emit Acquire;; try_finally m (emit Release)).
Proof.
  intros Hm st. destruct (Hm st I) as [_ Ht]. run_m.
  destruct (m st) as [[st1 t1] r]; simpl in *.
  by rewrite lock_walk_app, (lock_walk_held _ _ Ht).
Qed.

Lemma route_no_lock sock addr action payload identifier room_id :
  respects (λ _, True) no_lock (route sock addr action payload identifier room_id).
Proof. apply route_respects; [by apply store_events_respected|done..]. Qed.

Lemma udp_relay_no_lock action identifier payload room :
  respects (λ _, True) no_lock (udp_relay action identifier payload room).
Proof. apply udp_relay_respects; intros; by apply store_events_respected. Qed.

Lemma tcp_dispatch_orderly sock addr data : orderly strict (tcp_dispatch sock addr data).
Proof.
  unfold tcp_dispatch.
  repeat (apply orderly_bind;
    [ apply orderly_quiet;
      first [ apply json_loads_respects | apply subscript_respects
            | apply subscript_or_none_respects ]
    | intros ? ]).
  apply orderly_locked, route_no_lock.
Qed.

Lemma tcp_serve_orderly sock addr data : orderly strict (tcp_serve sock addr data).
Proof.
  unfold tcp_serve. apply orderly_bind.
  - apply orderly_try_except; [apply tcp_dispatch_orderly|].
    intros e h Hh. apply orderly_quiet.
    eapply tcp_handler_respects; [|exact Hh]. done.
  - intros _. apply orderly_quiet. by apply respects_emit.
Qed.

Lemma udp_locked_orderly action identifier payload room_id :
  orderly strict (udp_locked action identifier payload room_id).
Proof.
  unfold udp_locked.
  apply orderly_bind; [apply orderly_quiet, dict_key_respects|]. intros key.
  apply orderly_bind; [apply orderly_quiet, respects_get|]. intros st.
  destruct key as [room|]; [|apply orderly_quiet, respects_raise].
  destruct (room_lookup room (rooms st)); [|apply orderly_quiet, respects_raise].
  apply orderly_locked, udp_relay_no_lock.
Qed.

Lemma udp_serve_orderly addr data : orderly strict (udp_serve addr data).
Proof.
  unfold udp_serve, udp_dispatch. apply orderly_try_except.
  - repeat (apply orderly_bind;
      [ apply orderly_quiet;
        first [ apply json_loads_respects | apply subscript_or_none_respects ]
      | intros ? ]).
    apply orderly_try_except; [apply udp_locked_orderly|].
    intros [] h [= <-]. apply orderly_quiet. by apply respects_emit.
  - intros [] h [= <-]; apply orderly_quiet; by apply respects_emit.
Qed.

Lemma udp_iteration_orderly i : orderly strict (udp_iteration i).
Proof.
  destruct i as [[data addr]|]; [apply udp_serve_orderly|].
  apply orderly_quiet, respects_ret.
Qed.

Lemma UdpServer_run_orderly inputs : orderly strict (UdpServer_run inputs).
Proof.
  induction inputs as [|i inputs IH]; simpl; [apply orderly_quiet, respects_ret|].
  apply orderly_bind; [apply udp_iteration_orderly | done].
Qed.
End Orderly.

Lemma tcp_iteration_balanced `{PyInt} time_reference i :
  orderly false (tcp_iteration time_reference i).
Proof.
  unfold tcp_iteration. apply orderly_bind.
  - case_bool_decide; [|apply orderly_quiet, respects_ret].
    apply orderly_quiet.
    apply respects_bind; [|intros ?; apply respects_ret].
    by apply store_events_respected.
  - intros t. destruct (accepted i) as [[[sock addr] data]|];
      [|apply orderly_quiet, respects_ret].
    apply orderly_bind; [apply tcp_serve_orderly|].
    intros _. apply orderly_quiet, respects_ret.
Qed.

Lemma TcpServer_run_balanced `{PyInt} time_reference inputs :
  orderly false (TcpServer_run time_reference inputs).
Proof.
  revert time_reference.
  induction inputs as [|i inputs IH]; intros t; simpl;
    [apply orderly_quiet, respects_ret|].
  apply orderly_bind; [apply tcp_iteration_balanced | done].
Qed.

(** C10.  Each listener leaves the lock free at the end of every
    iteration of its loop, whatever it received and whether the iteration
    returned or raised: along the trace of an iteration, and of a whole
    run, acquisitions and releases alternate and the last one is a
    release. *)
Theorem lock_released_after_each_request `{PyInt} :
  (∀ time_reference i st,
     lock_run false (trace_of (tcp_iteration time_reference i st)) = Some false) ∧
  (∀ i st, lock_run false (trace_of (udp_iteration i st)) = Some false) ∧
  (∀ time_reference inputs st,
     lock_run false (trace_of (TcpServer_run time_reference inputs st)) = Some false) ∧
  (∀ inputs st, lock_run false (trace_of (UdpServer_run inputs st)) = Some false).
Proof.
  repeat split; intros.
  - apply tcp_iteration_balanced.
  - apply (udp_iteration_orderly false).
  - apply TcpServer_run_balanced.
  - apply (UdpServer_run_orderly false).
Qed.

(** ** The sweep *)

(** Calls made by the two listeners after [accept] and [recvfrom] are
    made with the lock held. *)
Lemma serve_calls_locked `{PyInt} :
  (∀ sock addr data st,
     lock_discipline false (trace_of (tcp_serve sock addr data st)) = Some false) ∧
  (∀ addr data st, lock_discipline false (trace_of (udp_serve addr data st)) = Some false).
Proof. split; intros; [apply (tcp_serve_orderly true) | apply (udp_serve_orderly true)]. Qed.

(** C2.  When the sweep is due, the iteration of the control-plane loop
    starts with a call of [remove_empty] made without the lock: the walk
    that requires every call of the store to be made under the lock
    rejects its trace. *)
Theorem sweep_runs_without_lock `{PyInt} time_reference i st :
  (time_reference + 60 < clock i)%Z →
  (∃ t, trace_of (tcp_iteration time_reference i st) = Call OpRemoveEmpty :: t) ∧
  lock_discipline false (trace_of (tcp_iteration time_reference i st)) = None.
Proof.
  intros Hdue. unfold tcp_iteration.
  rewrite (bool_decide_true _ Hdue).
  unfold Rooms_remove_empty. run_m.
  destruct (accepted i) as [[[sock addr] data]|]; simpl.
  - destruct (tcp_serve _ _ _ _) as [[st1 t1] [[]|e]]; simpl; eauto.
  - eauto.
Qed.

Lemma sweep_runs_without_lock_witness :
  (0 + 60 < clock sweep_due)%Z ∧
  lock_discipline false (trace_of (tcp_iteration (int_str := ascii_digits) 0 sweep_due (Rooms_init 4))) = None.
Proof.
  assert (0 + 60 < clock sweep_due)%Z as Hdue by (vm_compute; reflexivity).
  split; [exact Hdue|].
  exact (proj2 (sweep_runs_without_lock 0 sweep_due (Rooms_init 4) Hdue)).
Defined.

(** ** The branches of [route] *)

(** A decoded object with an [action] reaches [route], under the lock,
    with its three optional fields. *)
Lemma tcp_dispatch_object `{PyInt} sock addr data action st :
  envelope_action data = Some action →
  tcp_dispatch sock addr (Decoded data) st
  = (emit Acquire;;
     try_finally
       (route sock addr action (field "payload" data) (field "identifier" data)
          (field "room_id" data))
       (emit Release)) st.
Proof.
  destruct data as [| | | | | |kvs]; try done. simpl. intros Ha.
  unfold tcp_dispatch, subscript_or_none, subscript. run_m. rewrite Ha. simpl.
  destruct (obj_get "identifier" kvs), (obj_get "room_id" kvs),
    (obj_get "payload" kvs); simpl;
    by destruct (route _ _ _ _ _ _ _) as [[? ?] ?].
Qed.

(** What [tcp_serve] makes of the result of [route]. *)
Lemma tcp_serve_object `{PyInt} sock addr data action st :
  envelope_action data = Some action →
  tcp_serve sock addr (Decoded data) st
  = match route sock addr action (field "payload" data) (field "identifier" data)
            (field "room_id" data) st with
    | (st1, t1, Ret _) => (st1, Acquire :: t1 ++ [Release; Close sock], Ret tt)
    | (st1, t1, Raise KeyError) =>
        (st1, Acquire :: t1 ++ [Release; Log (LogJsonNotValid addr)], Raise TypeError)
    | (st1, t1, Raise ValueError) =>
        (st1, Acquire :: t1 ++ [Release; Log (LogNotJsonString addr)], Raise TypeError)
    | (st1, t1, Raise e) => (st1, Acquire :: t1 ++ [Release], Raise e)
    end.
Proof.
  intros Ha. unfold tcp_serve. unfold mbind at 1, M_bind, bind at 1, try_except.
  rewrite (tcp_dispatch_object _ _ _ _ _ Ha). run_m.
  destruct (route _ _ _ _ _ _ _) as [[st1 t1] [[]|[]]]; simpl;
    rewrite <- ?app_assoc; simpl; try done; by rewrite app_nil_r.
Qed.

Lemma route_register `{PyInt} sock addr payload identifier room_id st :
  route sock addr (JStr "register") payload identifier room_id st
  = match py_int payload with
    | Ret port =>
        let ident := fresh (dom (players st)) in
        ({| rooms := rooms st;
            players :=
              <[ident := {| p_identifier := ident; p_udp_addr := addr;
                            p_room := None |}]> (players st);
            capacity := capacity st |},
         [Call OpRegister; Send sock (Envelope true (JStr ident))], Ret tt)
    | Raise e => (st, [], Raise e)
    end.
Proof. unfold route. simpl. by destruct (py_int payload). Qed.

Lemma route_no_identifier `{PyInt} sock addr action payload room_id st :
  is_str action "register" = false →
  route sock addr action payload JNull room_id st = (st, [], Ret tt).
Proof. intros Ha. unfold route. by rewrite Ha. Qed.


Lemma route_leave `{PyInt} sock addr payload ident client room r st :
  players st !! ident = Some client →
  room_lookup room (rooms st) = Some r →
  route sock addr (JStr "leave") payload (JStr ident) (JStr room) st
  = (st, [], Raise UnboundLocalError).
Proof. intros Hp Hl. unfold route. run_m. by rewrite Hp, Hl. Qed.

Lemma route_leave_unknown_room `{PyInt} sock addr payload ident client room_id st :
  players st !! ident = Some client →
  hashable room_id = true →
  names_room st room_id = None →
  route sock addr (JStr "leave") payload (JStr ident) room_id st
  = (st, [Send sock (Envelope false room_id)], Ret tt).
Proof.
  intros Hp Hhash Hroom. unfold route. run_m. rewrite Hp.
  destruct room_id as [| | | |room| |]; try done. simpl in *.
  by destruct (room_lookup room (rooms st)).
Qed.

Lemma route_unknown_action `{PyInt} sock addr action payload ident client room_id st :
  players st !! ident = Some client →
  known_action action = false →
  route sock addr action payload (JStr ident) room_id st
  = (st, [], Raise AttributeError).
Proof.
  intros Hp Hk. unfold known_action in Hk.
  repeat (apply orb_false_iff in Hk; destruct Hk as [Hk ?]).
  unfold route.
  repeat match goal with H : is_str action _ = false |- _ => rewrite H; clear H end.
  run_m. rewrite Hp. done.
Qed.

(** C5.  A registration succeeds exactly when [int] converts the
    payload: the store then holds a new client under an identifier that
    was free, with the address of the caller, and the reply is a success
    that carries this identifier; when [int] raises, [route] raises the
    same exception with the store untouched and nothing sent. *)
Theorem register_when_payload_converts `{PyInt} sock addr payload identifier room_id st :
  let ident := fresh (dom (players st)) in
  players st !! ident = None ∧
  route sock addr (JStr "register") payload identifier room_id st
  = match py_int payload with
    | Ret port =>
        ({| rooms := rooms st;
            players :=
              <[ident := {| p_identifier := ident; p_udp_addr := addr;
                            p_room := None |}]> (players st);
            capacity := capacity st |},
         [Call OpRegister; Send sock (Envelope true (JStr ident))], Ret tt)
    | Raise e => (st, [], Raise e)
    end.
Proof.
  split; [|apply route_register].
  apply not_elem_of_dom, is_fresh.
Qed.

(** A registration without payload: [int(None)] raises [TypeError],
    nothing is registered and nothing is sent. *)
Lemma register_without_payload_fails :
  envelope_action register_no_payload = Some (JStr "register") ∧
  tcp_serve (int_str := ascii_digits) 7 host_a (Decoded register_no_payload) (Rooms_init 4)
  = (Rooms_init 4, [Acquire; Release], Raise TypeError).
Proof. split; reflexivity. Qed.

(** C4.  A request other than a registration that carries no identifier
    goes through [route] without any reply: the connection sees the lock
    taken and released, then is closed. *)
Theorem request_without_identifier_gets_no_reply `{PyInt} sock addr data action st :
  envelope_action data = Some action →
  is_str action "register" = false →
  field "identifier" data = JNull →
  tcp_serve sock addr (Decoded data) st = (st, [Acquire; Release; Close sock], Ret tt).
Proof.
  intros Ha Hreg Hid. rewrite (tcp_serve_object _ _ _ _ _ Ha), Hid.
  by rewrite route_no_identifier.
Qed.

Lemma request_without_identifier_gets_no_reply_witness :
  tcp_serve (int_str := ascii_digits) 7 host_a (Decoded join_no_identifier) full_room_store
  = (full_room_store, [Acquire; Release; Close 7], Ret tt).
Proof.
  apply (request_without_identifier_gets_no_reply 7 host_a join_no_identifier
           (JStr "join")); reflexivity.
Defined.

(** C3.  A leave of an existing room by a registered client never
    reaches the store: [route] raises [UnboundLocalError], so that the
    iteration ends with no reply and the exception leaves the loop. *)
Theorem leave_of_existing_room_raises `{PyInt} sock addr data ident client room r st :
  envelope_action data = Some (JStr "leave") →
  field "identifier" data = JStr ident →
  players st !! ident = Some client →
  field "room_id" data = JStr room →
  room_lookup room (rooms st) = Some r →
  tcp_serve sock addr (Decoded data) st = (st, [Acquire; Release], Raise UnboundLocalError).
Proof.
  intros Ha Hid Hp Hroom Hl. rewrite (tcp_serve_object _ _ _ _ _ Ha), Hid, Hroom.
  by rewrite (route_leave _ _ _ _ client _ r).
Qed.

Lemma leave_of_existing_room_raises_witness :
  (∃ r, room_lookup "0" (rooms full_room_store) = Some r ∧ "0" ∈ r_players r) ∧
  tcp_serve (int_str := ascii_digits) 7 host_a (Decoded leave_request) full_room_store
  = (full_room_store, [Acquire; Release], Raise UnboundLocalError).
Proof.
  assert (∃ client, players full_room_store !! "0" = Some client) as [client Hp].
  { eexists. vm_compute. reflexivity. }
  assert (∃ r, room_lookup "0" (rooms full_room_store) = Some r
               ∧ "0" ∈ r_players r) as (r & Hl & Hin).
  { eexists. split; [vm_compute; reflexivity|].
    apply (bool_decide_unpack _). vm_compute. exact I. }
  split; [by exists r|].
  exact (leave_of_existing_room_raises 7 host_a leave_request "0" client "0" r
           full_room_store eq_refl eq_refl Hp eq_refl Hl).
Defined.

(** C7.  A request of a registered client whose action has no branch in
    [route] raises [AttributeError]: nothing is sent back, and the
    exception leaves the loop. *)
Theorem unknown_action_raises `{PyInt} sock addr data action ident client st :
  envelope_action data = Some action →
  known_action action = false →
  field "identifier" data = JStr ident →
  players st !! ident = Some client →
  tcp_serve sock addr (Decoded data) st = (st, [Acquire; Release], Raise AttributeError).
Proof.
  intros Ha Hk Hid Hp. rewrite (tcp_serve_object _ _ _ _ _ Ha), Hid.
  by rewrite (route_unknown_action _ _ _ _ _ client).
Qed.

Lemma unknown_action_raises_witness :
  tcp_serve (int_str := ascii_digits) 7 host_a (Decoded dance_request) full_room_store
  = (full_room_store, [Acquire; Release], Raise AttributeError).
Proof.
  assert (∃ client, players full_room_store !! "0" = Some client) as [client Hp].
  { eexists. vm_compute. reflexivity. }
  exact (unknown_action_raises 7 host_a dance_request (JStr "dance") "0" client
           full_room_store eq_refl eq_refl eq_refl Hp).
Defined.

(** ** The end of a connection *)

Lemma tcp_dispatch_no_close `{PyInt} sock addr data :
  respects (λ _, True) no_close (tcp_dispatch sock addr data).
Proof.
  unfold tcp_dispatch.
  repeat first
    [ apply json_loads_respects | apply subscript_respects
    | apply subscript_or_none_respects
    | apply route_respects; [by apply store_events_respected|done..]
    | apply respects_emit; done
    | apply respects_try_finally
    | apply respects_bind; [|intros ?] ].
Qed.

(** C6.  The connection is closed, as the last thing the iteration
    does, only when the body of the [try] returns.  When it raises, the
    connection is never closed and an exception leaves the iteration,
    hence the loop: the exception raised, or, after [KeyError] and
    [ValueError], the [TypeError] of the handler's [conn.send] of a str. *)
Theorem connection_not_closed_after_exception `{PyInt} sock addr data st :
  match outcome_of (tcp_dispatch sock addr data st) with
  | Ret _ =>
      outcome_of (tcp_serve sock addr data st) = Ret tt ∧
      ∃ t, trace_of (tcp_serve sock addr data st) = t ++ [Close sock]
           ∧ Forall no_close t
  | Raise e =>
      outcome_of (tcp_serve sock addr data st)
      = Raise (match e with KeyError | ValueError => TypeError | _ => e end) ∧
      Forall no_close (trace_of (tcp_serve sock addr data st))
  end.
Proof.
  destruct (tcp_dispatch_no_close sock addr data st I) as [_ Ht].
  unfold tcp_serve. run_m.
  destruct (tcp_dispatch sock addr data st) as [[st1 t1] [[]|[]]]; simpl in *;
    try done; (split; [done|]).
  - by exists t1.
  - apply Forall_app. split; [done | by repeat constructor].
  - apply Forall_app. split; [done | by repeat constructor].
Qed.

(** The registration without payload ([int(None)] raises [TypeError]
    under the lock) and the envelope that is not JSON (the handler logs,
    then its [conn.send] raises): in both cases the iteration raises and
    the connection is not closed. *)
Lemma connection_not_closed_after_exception_witness :
  (outcome_of (tcp_serve (int_str := ascii_digits) 7 host_a
                 (Decoded register_no_payload) (Rooms_init 4)) = Raise TypeError ∧
   Forall no_close (trace_of (tcp_serve (int_str := ascii_digits) 7 host_a
                                (Decoded register_no_payload) (Rooms_init 4)))) ∧
  (outcome_of (tcp_serve (int_str := ascii_digits) 7 host_a NotJson (Rooms_init 4))
   = Raise TypeError ∧
   Forall no_close (trace_of (tcp_serve (int_str := ascii_digits) 7 host_a NotJson
                                (Rooms_init 4)))).
Proof.
  split.
  - exact (connection_not_closed_after_exception (H := ascii_digits) 7 host_a
             (Decoded register_no_payload) (Rooms_init 4)).
  - exact (connection_not_closed_after_exception (H := ascii_digits) 7 host_a
             NotJson (Rooms_init 4)).
Defined.

(** ** The data plane, datagram by datagram *)

Lemma udp_serve_not_json addr st :
  udp_serve addr NotJson st = (st, [Log (LogNotJsonString addr)], Ret tt).
Proof. reflexivity. Qed.

Lemma udp_serve_not_object addr data st :
  is_object data = false →
  udp_serve addr (Decoded data) st = (st, [], Raise TypeError).
Proof. by destruct data. Qed.

Lemma bind_pure {A B} (m : M A) (f : A → M B) a st :
  m st = (st, [], Ret a) → (m ≫= f) st = f a st.
Proof.
  intros Hm. unfold mbind, M_bind, bind. rewrite Hm.
  by destruct (f a st) as [[? ?] ?].
Qed.

Lemma subscript_or_none_object data k st :
  is_object data = true →
  subscript_or_none data k st = (st, [], Ret (field k data)).
Proof.
  destruct data as [| | | | | |kvs]; try done. intros _.
  unfold subscript_or_none, subscript, try_except. simpl.
  by destruct (obj_get k kvs).
Qed.

(** A decoded object reaches the inner [try] with its four fields. *)
Lemma udp_dispatch_object data st :
  is_object data = true →
  udp_dispatch (Decoded data) st
  = try_except
      (udp_locked (field "action" data) (field "identifier" data)
         (field "payload" data) (field "room_id" data))
      udp_room_handler st.
Proof.
  intros Hobj. unfold udp_dispatch.
  rewrite (bind_pure _ _ data) by done.
  by rewrite !(bind_pure _ _ _ _ (subscript_or_none_object _ _ _ Hobj)).
Qed.

Lemma udp_serve_unknown_room addr data st :
  is_object data = true →
  hashable (field "room_id" data) = true →
  names_room st (field "room_id" data) = None →
  udp_serve addr (Decoded data) st = (st, [Log LogRoomNotFound], Ret tt).
Proof.
  intros Hobj Hhash Hroom. unfold udp_serve, try_except at 1.
  rewrite (udp_dispatch_object _ _ Hobj). unfold udp_locked.
  destruct (field "room_id" data) as [| | | |room| |]; try done; run_m;
    try done.
  by destruct (room_lookup room (rooms st)).
Qed.

(** The relay never raises. *)
Lemma suppress_returns (m : M unit) st : outcome_of (suppress m st) = Ret tt.
Proof.
  unfold suppress, try_except, outcome_of.
  by destruct (m st) as [[st1 t1] [[]|e]].
Qed.

Lemma udp_relay_returns action identifier payload room st :
  outcome_of (udp_relay action identifier payload room st) = Ret tt.
Proof.
  unfold udp_relay. repeat case_match; try apply suppress_returns. done.
Qed.

Lemma udp_serve_known_room addr data room st :
  is_object data = true →
  names_room st (field "room_id" data) = Some room →
  udp_serve addr (Decoded data) st
  = after [Acquire]
      (try_finally
         (udp_relay (field "action" data) (field "identifier" data)
            (field "payload" data) room)
         (emit Release) st).
Proof.
  intros Hobj Hroom. unfold udp_serve, try_except at 1.
  rewrite (udp_dispatch_object _ _ Hobj). unfold udp_locked.
  destruct (field "room_id" data) as [| | | |room'| |]; try done. simpl in Hroom.
  unfold after. run_m.
  destruct (room_lookup room' (rooms st)); [|done]. injection Hroom as ->. simpl.
  pose proof (udp_relay_returns (field "action" data) (field "identifier" data)
                (field "payload" data) room st) as Hret.
  destruct (udp_relay _ _ _ _ _) as [[st1 t1] o]. simpl in Hret. by subst o.
Qed.

Lemma deliver_relay st identifier members message :
  Forall (λ m, JStr m ≠ identifier) members →
  respects (λ s, s = st) (udp_event st identifier) (deliver st members message).
Proof.
  induction 1 as [|m members Hm _ IH]; simpl; [apply respects_ret|].
  apply respects_bind; [|done].
  destruct (players st !! m) as [p|] eqn:Hp; [|apply respects_ret].
  apply respects_emit. simpl. eauto.
Qed.

Lemma sender_in_room_str st identifier room sender :
  sender_in_room st identifier room = Some sender → identifier = JStr sender.
Proof.
  destruct identifier as [| | | |s| |]; simpl; try done.
  destruct (players st !! s); [|done]. by case_bool_decide; intros [= ->].
Qed.

Lemma relay_targets_other sender r :
  Forall (λ m, JStr m ≠ JStr sender) (relay_targets sender r).
Proof.
  apply Forall_forall. intros m Hm [= ->]. unfold relay_targets in Hm.
  apply elem_of_elements, elem_of_difference in Hm as [_ Hm].
  by apply Hm, elem_of_singleton.
Qed.

Lemma send_relay st identifier room message :
  respects (λ s, s = st) (udp_event st identifier)
    (Rooms_send identifier room message).
Proof.
  intros s ->. unfold Rooms_send. run_m.
  destruct (room_lookup room (rooms st)) as [r|]; simpl;
    [|split; [done | by repeat constructor]].
  destruct (sender_in_room st identifier room) as [sender|] eqn:Hs; simpl;
    [|split; [done | by repeat constructor]].
  apply sender_in_room_str in Hs as ->.
  destruct (deliver_relay st (JStr sender) _ message (relay_targets_other sender r)
              st eq_refl) as [Hst Ht].
  destruct (deliver _ _ _ _) as [[st1 t1] o]; simpl in *.
  split; [done | by constructor].
Qed.

Lemma sendto_relay st identifier room recipients message :
  respects (λ s, s = st) (udp_event st identifier)
    (Rooms_sendto identifier room recipients message).
Proof.
  intros s ->. unfold Rooms_sendto. run_m.
  destruct (room_lookup room (rooms st)) as [r|]; simpl;
    [|split; [done | by repeat constructor]].
  destruct (sender_in_room st identifier room) as [sender|] eqn:Hs; simpl;
    [|split; [done | by repeat constructor]].
  apply sender_in_room_str in Hs as ->.
  assert (Forall (λ m, JStr m ≠ JStr sender)
            (filter (λ m, m ∈ recipient_ids recipients) (relay_targets sender r)))
    as Hother.
  { apply Forall_forall. intros m [_ Hm]%list_elem_of_filter.
    by apply (proj1 (Forall_forall _ _) (relay_targets_other sender r)). }
  destruct (deliver_relay st (JStr sender) _ message Hother st eq_refl) as [Hst Ht].
  destruct (deliver _ _ _ _) as [[st1 t1] o]; simpl in *.
  split; [done | by constructor].
Qed.

Lemma udp_serve_relay addr data st :
  respects (λ s, s = st) (udp_event st (datagram_identifier data))
    (udp_serve addr data).
Proof.
  intros s ->. destruct data as [data| |]; [|by repeat constructor..].
  destruct (is_object data) eqn:Hobj;
    [|rewrite (udp_serve_not_object _ _ _ Hobj); by repeat constructor].
  destruct (hashable (field "room_id" data)) eqn:Hhash.
  - destruct (names_room st (field "room_id" data)) as [room|] eqn:Hroom;
      [|rewrite (udp_serve_unknown_room _ _ _ Hobj Hhash Hroom);
        by repeat constructor].
    rewrite (udp_serve_known_room _ _ _ _ Hobj Hroom). unfold after. simpl.
    assert (respects (λ s, s = st) (udp_event st (field "identifier" data))
              (try_finally
                 (udp_relay (field "action" data) (field "identifier" data)
                    (field "payload" data) room) (emit Release))) as Hrelay.
    { apply respects_try_finally; [|by apply respects_emit].
      apply udp_relay_respects; intros; [apply send_relay | apply sendto_relay]. }
    destruct (Hrelay st eq_refl) as [Hst Ht]. split; [done | by constructor].
  - unfold udp_serve, try_except. rewrite (udp_dispatch_object _ _ Hobj).
    unfold udp_locked. destruct (field "room_id" data); try done;
      run_m; by repeat constructor.
Qed.

(** The deliveries do not depend on where the datagram came from. *)
Lemma udp_serve_source addr addr' data st :
  filter (λ ev, is_deliver ev = true) (trace_of (udp_serve addr' data st))
  = filter (λ ev, is_deliver ev = true) (trace_of (udp_serve addr data st))
  ∧ store_of (udp_serve addr' data st) = store_of (udp_serve addr data st).
Proof.
  unfold udp_serve, try_except.
  destruct (udp_dispatch data st) as [[st1 t1] [[]|[]]]; simpl; try done;
    unfold trace_of; simpl; by rewrite !filter_app.
Qed.

(** C8.  Whatever the datagram and wherever it comes from, the data
    plane leaves the store as it is, writes on no connection, and sends
    datagrams only to the stored addresses of registered clients other
    than the one the datagram names as its sender; which datagrams it
    sends does not depend on the source address, which is used in log
    lines only.  So a datagram goes to the source address only when
    that is the address stored for another client. *)
Theorem datagrams_go_to_other_members addr data st :
  store_of (udp_serve addr data st) = st ∧
  Forall (udp_event st (datagram_identifier data)) (trace_of (udp_serve addr data st)) ∧
  (∀ addr',
     filter (λ ev, is_deliver ev = true) (trace_of (udp_serve addr' data st))
     = filter (λ ev, is_deliver ev = true) (trace_of (udp_serve addr data st))) ∧
  (∀ recipient message,
     Deliver recipient addr message ∈ trace_of (udp_serve addr data st) →
     JStr recipient ≠ datagram_identifier data
     ∧ ∃ p, players st !! recipient = Some p ∧ p_udp_addr p = addr).
Proof.
  destruct (udp_serve_relay addr data st st eq_refl) as [Hst Ht].
  split; [done|]. split; [done|]. split; [intros addr'; apply udp_serve_source|].
  intros recipient message Hin.
  apply (proj1 (Forall_forall _ _) Ht) in Hin as [Hother (p & Hp & Haddr)].
  eauto.
Qed.

Lemma datagrams_go_to_other_members_witness :
  Deliver "0" host_a (JStr "hi")
    ∈ trace_of (udp_serve host_a (Decoded hello_datagram) two_hosts_store) ∧
  JStr "0" ≠ JStr "1" ∧
  ∃ p, players two_hosts_store !! "0" = Some p ∧ p_udp_addr p = host_a.
Proof.
  assert (Deliver "0" host_a (JStr "hi")
            ∈ trace_of (udp_serve host_a (Decoded hello_datagram) two_hosts_store))
    as Hin.
  { vm_compute. do 2 apply list_elem_of_further. apply list_elem_of_here. }
  split; [exact Hin|].
  destruct (datagrams_go_to_other_members host_a (Decoded hello_datagram)
              two_hosts_store) as (_ & _ & _ & Hsource).
  exact (Hsource "0" (JStr "hi") Hin).
Defined.

(** A datagram that arrives from [host_a] under the identifier of client
    "1" is relayed to client "0", whose stored address is [host_a]: the
    bytes go to the source address of the datagram. *)
Lemma datagram_sent_to_its_source :
  udp_serve host_a (Decoded hello_datagram) two_hosts_store
  = (two_hosts_store,
     [Acquire; Call OpSend; Deliver "0" host_a (JStr "hi"); Release], Ret tt).
Proof. vm_compute. reflexivity. Qed.

(** ** Datagrams that are dropped *)

Lemma sender_in_room_registered st identifier room :
  registered st identifier = false → sender_in_room st identifier room = None.
Proof.
  destruct identifier as [| | | |s| |]; simpl; try done.
  destruct (players st !! s) as [p|]; [|done].
  intros Hr. apply bool_decide_eq_false in Hr. by destruct Hr.
Qed.

Lemma send_unregistered st identifier room message :
  registered st identifier = false →
  ∃ e, Rooms_send identifier room message st = (st, [Call OpSend], Raise e).
Proof.
  intros Hs%(sender_in_room_registered _ _ room). unfold Rooms_send. run_m.
  destruct (room_lookup room (rooms st)); simpl; [rewrite Hs|]; eauto.
Qed.

Lemma sendto_unregistered st identifier room recipients message :
  registered st identifier = false →
  ∃ e, Rooms_sendto identifier room recipients message st
       = (st, [Call OpSendto], Raise e).
Proof.
  intros Hs%(sender_in_room_registered _ _ room). unfold Rooms_sendto. run_m.
  destruct (room_lookup room (rooms st)); simpl; [rewrite Hs|]; eauto.
Qed.

Lemma subscript_pure d k st :
  ∃ o, subscript d k st = (st, [], o).
Proof.
  unfold subscript. destruct d; try by eexists.
  destruct (obj_get k kvs); by eexists.
Qed.

Lemma udp_relay_unregistered action identifier payload room st :
  registered st identifier = false →
  ∃ t, udp_relay action identifier payload room st = (st, t, Ret tt)
       ∧ Forall (λ ev, is_call ev = true) t.
Proof.
  intros Hreg. unfold udp_relay, suppress, try_except.
  destruct (is_str action "send"); [|destruct (is_str action "sendto")].
  - unfold mbind, M_bind, bind.
    destruct (subscript_pure payload "message" st) as [[message|e] ->];
      [|by exists []].
    destruct (send_unregistered st identifier room message Hreg) as [e ->].
    exists [Call OpSend]. by repeat constructor.
  - unfold mbind, M_bind, bind.
    destruct (subscript_pure payload "recipients" st) as [[recipients|e] ->];
      [|by exists []].
    destruct (subscript_pure payload "message" st) as [[message|e] ->];
      [|by exists []].
    destruct (sendto_unregistered st identifier room recipients message Hreg)
      as [e ->].
    exists [Call OpSendto]. by repeat constructor.
  - by exists [].
Qed.

(** The loop goes on after an iteration that returns. *)
Lemma UdpServer_run_next data addr inputs st t :
  udp_serve addr data st = (st, t, Ret tt) →
  UdpServer_run (Some (data, addr) :: inputs) st = after t (UdpServer_run inputs st).
Proof.
  intros Hs. simpl. unfold mbind, M_bind, bind, after. rewrite Hs.
  by destruct (UdpServer_run inputs st) as [[st2 t2] r].
Qed.

(** C9.  A datagram that is not JSON ([json.loads] raises
    [ValueError]), or that decodes to an object whose [room_id] is
    hashable and names no room, is dropped with one log line; a datagram
    for an existing room whose identifier is no registered client is
    dropped without a delivery and without a log line.  In the three
    cases the store is as before and the loop goes on with the next
    datagram. *)
Theorem bad_datagram_dropped addr data inputs st :
  (data = NotJson →
   UdpServer_run (Some (data, addr) :: inputs) st
   = after [Log (LogNotJsonString addr)] (UdpServer_run inputs st)) ∧
  (∀ d, data = Decoded d →
        is_object d = true →
        hashable (field "room_id" d) = true →
        names_room st (field "room_id" d) = None →
        UdpServer_run (Some (data, addr) :: inputs) st
        = after [Log LogRoomNotFound] (UdpServer_run inputs st)) ∧
  (∀ d room, data = Decoded d →
             is_object d = true →
             names_room st (field "room_id" d) = Some room →
             registered st (field "identifier" d) = false →
             ∃ t, Forall (λ ev, is_deliver ev = false ∧ is_log ev = false) t
                  ∧ UdpServer_run (Some (data, addr) :: inputs) st
                    = after t (UdpServer_run inputs st)).
Proof.
  split; [|split].
  - intros ->. by apply UdpServer_run_next.
  - intros d -> Hobj Hhash Hroom. by apply UdpServer_run_next, udp_serve_unknown_room.
  - intros d room -> Hobj Hroom Hreg.
    destruct (udp_relay_unregistered (field "action" d) (field "identifier" d)
                (field "payload" d) room st Hreg) as (t & Ht & Hcalls).
    exists (Acquire :: t ++ [Release]). split.
    + constructor; [done|]. apply Forall_app. split; [|by repeat constructor].
      eapply Forall_impl; [exact Hcalls|]. by intros [].
    + apply UdpServer_run_next.
      rewrite (udp_serve_known_room _ _ _ _ Hobj Hroom).
      unfold after, try_finally. rewrite Ht. done.
Qed.

Lemma bad_datagram_dropped_witness :
  registered full_room_store (JStr "9") = false ∧
  ∃ t, Forall (λ ev, is_deliver ev = false ∧ is_log ev = false) t
       ∧ UdpServer_run [Some (Decoded ghost_datagram, host_a)] full_room_store
         = after t (UdpServer_run [] full_room_store).
Proof.
  assert (registered full_room_store (JStr "9") = false) as Hreg
    by (vm_compute; reflexivity).
  split; [exact Hreg|].
  destruct (bad_datagram_dropped host_a (Decoded ghost_datagram) [] full_room_store)
    as (_ & _ & Hdrop).
  apply (Hdrop ghost_datagram "0"); [reflexivity | reflexivity | | exact Hreg].
  vm_compute. reflexivity.
Defined.

(** The datagram of an unknown sender to the room of [full_room_store]:
    the relay is tried and abandoned, and nothing is printed. *)
Lemma unknown_sender_dropped_without_log :
  registered full_room_store (JStr "9") = false ∧
  udp_serve host_a (Decoded ghost_datagram) full_room_store
  = (full_room_store, [Acquire; Call OpSend; Release], Ret tt) ∧
  filter (λ ev, is_log ev = true) [Acquire; Call OpSend; Release] = [].
Proof. repeat split; vm_compute; reflexivity. Qed.

(** * Further properties of the listeners *)

(** ** Envelopes the control plane rejects *)

Lemma malformed_envelope_shape `{PyInt} sock addr d st :
  is_object d = true →
  envelope_action d = None →
  tcp_serve sock addr (Decoded d) st
  = (st, [Log (LogJsonNotValid addr)], Raise TypeError).
Proof.
  intros Hobj Ha. destruct d as [| | | | | |kvs]; try done.
  simpl in Ha. unfold tcp_serve, tcp_dispatch, subscript. run_m. by rewrite Ha.
Qed.

(** X1.  An envelope that is not JSON, and a decoded object without
    [action], are logged and not answered: the [conn.send] of the handler
    raises [TypeError], which leaves the iteration before [conn.close()].
    An envelope nested too deep for the decoder raises [RecursionError],
    which no handler catches.  In the three cases the lock is not taken
    and the store is not touched. *)
Theorem malformed_envelope_not_answered `{PyInt} sock addr data st :
  (data = NotJson →
   tcp_serve sock addr data st
   = (st, [Log (LogNotJsonString addr)], Raise TypeError)) ∧
  (∀ d, data = Decoded d →
        is_object d = true →
        envelope_action d = None →
        tcp_serve sock addr data st
        = (st, [Log (LogJsonNotValid addr)], Raise TypeError)) ∧
  (data = TooDeep →
   tcp_serve sock addr data st = (st, [], Raise RecursionError)).
Proof.
  split; [by intros ->|]. split; [|by intros ->].
  intros d -> Hobj Ha. by apply malformed_envelope_shape.
Qed.

Lemma malformed_envelope_not_answered_witness :
  tcp_serve (int_str := ascii_digits) 7 host_a (Decoded no_action_request) full_room_store
  = (full_room_store, [Log (LogJsonNotValid host_a)], Raise TypeError).
Proof.
  destruct (malformed_envelope_not_answered (H := ascii_digits) 7 host_a
              (Decoded no_action_request) full_room_store) as (_ & Hkey & _).
  apply (Hkey no_action_request); reflexivity.
Defined.

(** X2.  A decoded value that is not an object (a list, a string, a
    number, [null]) makes the control plane raise [TypeError] at
    [data['action']], which no handler catches: nothing is logged,
    answered or closed, and the lock is not taken. *)
Theorem non_object_envelope_escapes `{PyInt} sock addr data st :
  is_object data = false →
  tcp_serve sock addr (Decoded data) st = (st, [], Raise TypeError).
Proof. intros Hobj. by destruct data. Qed.

Lemma non_object_envelope_escapes_witness :
  tcp_serve (int_str := ascii_digits) 7 host_a (Decoded (JArr [])) full_room_store
  = (full_room_store, [], Raise TypeError).
Proof. apply (non_object_envelope_escapes 7 host_a (JArr [])). reflexivity. Defined.

(** X3.  A registration whose payload makes [int] raise [ValueError]
    (a string that is no numeral, a NaN): the exception raised inside
    [route] is caught by the handler meant for envelopes that are not
    JSON, which prints its line; its [conn.send] then raises [TypeError].
    The lock is released, nothing is registered or answered, and the
    connection is not closed. *)
Theorem register_with_bad_numeral_not_answered `{PyInt} sock addr data st :
  envelope_action data = Some (JStr "register") →
  py_int (field "payload" data) = Raise ValueError →
  tcp_serve sock addr (Decoded data) st
  = (st, [Acquire; Release; Log (LogNotJsonString addr)], Raise TypeError).
Proof.
  intros Ha Hp. rewrite (tcp_serve_object _ _ _ _ _ Ha), route_register.
  by rewrite Hp.
Qed.

Lemma register_with_bad_numeral_not_answered_witness :
  tcp_serve (int_str := ascii_digits) 7 host_a (Decoded register_word_request) (Rooms_init 4)
  = (Rooms_init 4, [Acquire; Release; Log (LogNotJsonString host_a)], Raise TypeError).
Proof.
  apply (register_with_bad_numeral_not_answered (H := ascii_digits) 7 host_a
           register_word_request); reflexivity.
Defined.



Lemma route_unhashable_identifier `{PyInt} sock addr action payload identifier room_id st :
  is_str action "register" = false →
  hashable identifier = false →
  route sock addr action payload identifier room_id st = (st, [], Raise TypeError).
Proof.
  intros Ha Hhash. unfold route. rewrite Ha. by destruct identifier.
Qed.

(** X5.  A request other than a registration whose identifier is a list
    or an object: the test of membership raises [TypeError]; the lock is
    released, but nothing is answered and the connection is not closed. *)
Theorem unhashable_identifier_escapes `{PyInt} sock addr data action st :
  envelope_action data = Some action →
  is_str action "register" = false →
  hashable (field "identifier" data) = false →
  tcp_serve sock addr (Decoded data) st = (st, [Acquire; Release], Raise TypeError).
Proof.
  intros Ha Hreg Hhash. rewrite (tcp_serve_object _ _ _ _ _ Ha).
  by rewrite route_unhashable_identifier.
Qed.

Lemma unhashable_identifier_escapes_witness :
  tcp_serve (int_str := ascii_digits) 7 host_a (Decoded list_identifier_request) full_room_store
  = (full_room_store, [Acquire; Release], Raise TypeError).
Proof.
  apply (unhashable_identifier_escapes 7 host_a list_identifier_request
           (JStr "get_rooms")); reflexivity.
Defined.

Lemma route_join_unknown_room `{PyInt} sock addr payload ident client room_id st :
  players st !! ident = Some client →
  hashable payload = true →
  names_room st payload = None →
  route sock addr (JStr "join") payload (JStr ident) room_id st
  = (st, [Send sock (Envelope false room_id)], Ret tt).
Proof.
  intros Hp Hhash Hroom. unfold route. run_m. rewrite Hp.
  destruct payload as [| | | |room| |]; try done. simpl in *.
  by destruct (room_lookup room (rooms st)).
Qed.

(** X6.  A join whose payload names no room is refused without a call
    of the store, and the refusal carries the [room_id] field of the
    envelope, not the payload that named the room. *)
Theorem join_of_unknown_room_refused `{PyInt} sock addr data ident client st :
  envelope_action data = Some (JStr "join") →
  field "identifier" data = JStr ident →
  players st !! ident = Some client →
  hashable (field "payload" data) = true →
  names_room st (field "payload" data) = None →
  tcp_serve sock addr (Decoded data) st
  = (st, [Acquire; Send sock (Envelope false (field "room_id" data)); Release;
          Close sock],
     Ret tt).
Proof.
  intros Ha Hid Hp Hhash Hroom. rewrite (tcp_serve_object _ _ _ _ _ Ha), Hid.
  by rewrite (route_join_unknown_room _ _ _ _ client).
Qed.

Lemma join_of_unknown_room_refused_witness :
  tcp_serve (int_str := ascii_digits) 7 host_a (Decoded join_nowhere_request) full_room_store
  = (full_room_store, [Acquire; Send 7 (Envelope false JNull); Release; Close 7],
     Ret tt).
Proof.
  assert (∃ client, players full_room_store !! "0" = Some client) as [client Hp].
  { eexists. vm_compute. reflexivity. }
  apply (join_of_unknown_room_refused 7 host_a join_nowhere_request "0" client);
    try reflexivity. exact Hp.
Defined.

(** ** The loops *)

(** X7.  Neither loop has a handler around its body: once an iteration
    has raised, the run is over, and whatever arrives later is never
    served. *)
Theorem run_ends_at_first_exception `{PyInt} :
  (∀ time_reference l1 l2 st e,
     outcome_of (TcpServer_run time_reference l1 st) = Raise e →
     TcpServer_run time_reference (l1 ++ l2) st = TcpServer_run time_reference l1 st) ∧
  (∀ l1 l2 st e,
     outcome_of (UdpServer_run l1 st) = Raise e →
     UdpServer_run (l1 ++ l2) st = UdpServer_run l1 st).
Proof.
  split.
  - intros t l1 l2. revert t. induction l1 as [|i l1 IH]; intros t st e; [done|].
    simpl. unfold mbind, M_bind, bind.
    destruct (tcp_iteration t i st) as [[st1 t1] [t'|e1]]; [|done].
    intros Hraise. specialize (IH t' st1 e).
    destruct (TcpServer_run t' l1 st1) as [[st2 t2] r] eqn:Hrun.
    simpl in Hraise. by rewrite IH.
  - intros l1 l2. induction l1 as [|i l1 IH]; intros st e; [done|].
    simpl. unfold mbind, M_bind, bind.
    destruct (udp_iteration i st) as [[st1 t1] [[]|e1]]; [|done].
    intros Hraise. specialize (IH st1 e).
    destruct (UdpServer_run l1 st1) as [[st2 t2] r] eqn:Hrun.
    simpl in Hraise. by rewrite IH.
Qed.

Lemma run_ends_at_first_exception_witness :
  outcome_of (TcpServer_run (int_str := ascii_digits) 0 [leave_connection] full_room_store)
  = Raise UnboundLocalError ∧
  TcpServer_run (int_str := ascii_digits) 0 ([leave_connection] ++ session) full_room_store
  = TcpServer_run (int_str := ascii_digits) 0 [leave_connection] full_room_store.
Proof.
  assert (outcome_of (TcpServer_run (int_str := ascii_digits) 0 [leave_connection]
                        full_room_store)
          = Raise UnboundLocalError) as Hraise by (vm_compute; reflexivity).
  split; [exact Hraise|].
  exact (proj1 (run_ends_at_first_exception (H := ascii_digits)) 0%Z [leave_connection] session
           full_room_store UnboundLocalError Hraise).
Defined.

(** ** What the control plane can do *)

Lemma respects_both {A} (I : Rooms → Prop) (P Q : event → Prop) (m : M A) :
  respects I P m → respects (λ _, True) Q m → respects I Q m.
Proof.
  intros HI HQ st Hst. split; [by apply HI | by apply HQ].
Qed.

Lemma respects_put_any (P : event → Prop) st' : respects (λ _, True) P (put st').
Proof. intros st _. split; [done | constructor]. Qed.

Lemma deliver_events (P : event → Prop) st members message :
  (∀ r a m, P (Deliver r a m)) →
  respects (λ _, True) P (deliver st members message).
Proof.
  intros Hdel. induction members as [|m members IH]; simpl; [apply respects_ret|].
  apply respects_bind; [|done].
  destruct (players st !! m); [by apply respects_emit | apply respects_ret].
Qed.

Ltac store_events :=
  unfold Rooms_register, Rooms_create, Rooms_join, Rooms_remove_empty,
    Rooms_send, Rooms_sendto, join_room, new_room;
  repeat first
    [ apply respects_ret | apply respects_raise | apply respects_get
    | apply respects_put_any | apply deliver_events; solve [auto]
    | apply respects_emit; solve [auto]
    | apply respects_bind; [|intros ?]
    | case_match ].

Section Calls.
Context (P : event → Prop).

Lemma register_events addr hint :
  P (Call OpRegister) → respects (λ _, True) P (Rooms_register addr hint).
Proof. intros. store_events. Qed.

Lemma create_events name :
  P (Call OpCreate) → respects (λ _, True) P (Rooms_create name).
Proof. intros. store_events. Qed.

Lemma join_events identifier room_id :
  P (Call OpJoin) → respects (λ _, True) P (Rooms_join identifier room_id).
Proof. intros. store_events. Qed.

Lemma remove_empty_events :
  P (Call OpRemoveEmpty) → respects (λ _, True) P Rooms_remove_empty.
Proof. intros. store_events. Qed.

Lemma send_events identifier room_id message :
  P (Call OpSend) → (∀ r a m, P (Deliver r a m)) →
  respects (λ _, True) P (Rooms_send identifier room_id message).
Proof. intros. store_events. Qed.

Lemma sendto_events identifier room_id recipients message :
  P (Call OpSendto) → (∀ r a m, P (Deliver r a m)) →
  respects (λ _, True) P (Rooms_sendto identifier room_id recipients message).
Proof. intros. store_events. Qed.
End Calls.

(** [route] and the iteration around it, for a property of the events
    that holds of the three calls [route] makes and of what is written on
    the connection at hand. *)
Section ControlPlane.
Context `{PyInt}.
Context (P : event → Prop) (sock : conn).
Context (Hregister : P (Call OpRegister)) (Hcreate : P (Call OpCreate))
  (Hjoin : P (Call OpJoin)).
Context (Hsend : ∀ m, P (Send sock m)) (Hlog : ∀ m, P (Log m)).

Lemma route_events addr action payload identifier room_id :
  respects (λ _, True) P (route sock addr action payload identifier room_id).
Proof.
  assert (∀ e h, join_handler room_id sock e = Some h →
                 respects (λ _, True) P h) as Hjoin_handler.
  { intros [] h [= <-]; apply respects_emit, Hsend. }
  assert (∀ e h, leave_handler room_id sock e = Some h →
                 respects (λ _, True) P h) as Hleave_handler.
  { intros [] h [= <-]; apply respects_emit, Hsend. }
  unfold route, send_tcp, send_str.
  repeat first
    [ apply register_events; assumption
    | apply create_events; assumption
    | apply join_events; assumption
    | apply respects_ret | apply respects_raise | apply respects_get
    | apply lift_respects | apply dict_key_respects
    | apply respects_emit; solve [auto]
    | apply respects_bind; [|intros ?]
    | apply respects_try_except; [|done]
    | case_match ].
Qed.

Context (Hacquire : P Acquire) (Hrelease : P Release) (Hclose : P (Close sock)).

Lemma tcp_dispatch_events addr data :
  respects (λ _, True) P (tcp_dispatch sock addr data).
Proof.
  unfold tcp_dispatch.
  repeat first
    [ apply json_loads_respects | apply subscript_respects
    | apply subscript_or_none_respects | apply route_events
    | apply respects_emit; assumption
    | apply respects_try_finally
    | apply respects_bind; [|intros ?] ].
Qed.

Lemma tcp_serve_events addr data :
  respects (λ _, True) P (tcp_serve sock addr data).
Proof.
  unfold tcp_serve.
  apply respects_bind; [|intros ?; by apply respects_emit].
  apply respects_try_except; [apply tcp_dispatch_events|].
  intros e h Hh. eapply tcp_handler_respects; [|exact Hh]. done.
Qed.
End ControlPlane.

Lemma tcp_serve_route_events `{PyInt} sock addr data :
  respects (λ _, True) route_event (tcp_serve sock addr data).
Proof. by apply tcp_serve_events. Qed.

Lemma route_event_control ev : route_event ev → control_event ev.
Proof. by destruct ev as [| |[]| | | |]. Qed.

Lemma tcp_iteration_control `{PyInt} time_reference i :
  respects (λ _, True) control_event (tcp_iteration time_reference i).
Proof.
  unfold tcp_iteration. apply respects_bind.
  - case_bool_decide; [|apply respects_ret].
    apply respects_bind; [by apply remove_empty_events | intros ?; apply respects_ret].
  - intros t. destruct (accepted i) as [[[sock addr] data]|]; [|apply respects_ret].
    apply respects_bind; [|intros ?; apply respects_ret].
    intros st _. split; [done|].
    eapply Forall_impl; [by apply (tcp_serve_route_events sock addr data st)|].
    apply route_event_control.
Qed.

(** X8.  Along any run of the control plane, the only methods of the
    store that are called are [register], [create], [join] and
    [remove_empty]: [leave], [send] and [sendto] are never called, and no
    datagram is sent. *)
Theorem control_plane_calls `{PyInt} time_reference inputs st :
  Forall control_event (trace_of (TcpServer_run time_reference inputs st)).
Proof.
  assert (∀ t, respects (λ _, True) control_event (TcpServer_run t inputs)) as Hrun.
  { induction inputs as [|i inputs IH]; intros t; simpl; [apply respects_ret|].
    apply respects_bind; [apply tcp_iteration_control | done]. }
  by apply Hrun.
Qed.

(** X9.  No sweep runs while the clock is at most 60 seconds past
    [time_reference]: the test is strict, and [time_reference] moves only
    when a sweep runs. *)
Theorem no_sweep_within_a_minute `{PyInt} time_reference inputs st :
  Forall (λ i, (clock i ≤ time_reference + 60)%Z) inputs →
  Forall (λ ev, ev ≠ Call OpRemoveEmpty)
    (trace_of (TcpServer_run time_reference inputs st)).
Proof.
  intros Hclock. revert st.
  induction Hclock as [|i inputs Hi _ IH]; intros st; simpl; [constructor|].
  unfold tcp_iteration.
  rewrite bool_decide_false by lia.
  unfold mbind, M_bind, bind, mret, M_ret, ret, trace_of. simpl.
  destruct (accepted i) as [[[sock addr] data]|]; simpl.
  - destruct (tcp_serve_route_events sock addr data st I) as [_ Ht].
    unfold trace_of in Ht.
    assert (∀ t, Forall route_event t → Forall (λ ev, ev ≠ Call OpRemoveEmpty) t)
      as Hno.
    { intros t Hroute. eapply Forall_impl; [exact Hroute|]. by intros ev Hev ->. }
    destruct (tcp_serve sock addr data st) as [[st1 t1] [[]|e]]; simpl in *;
      [|by apply Hno].
    specialize (IH st1). unfold trace_of in IH.
    destruct (TcpServer_run time_reference inputs st1) as [[st2 t2] r]; simpl in *.
    rewrite app_nil_r. apply Forall_app. split; [by apply Hno | done].
  - specialize (IH st). unfold trace_of in IH.
    by destruct (TcpServer_run time_reference inputs st) as [[st2 t2] r].
Qed.

Lemma no_sweep_within_a_minute_witness :
  Forall (λ i, (clock i ≤ 0 + 60)%Z) session ∧
  Forall (λ ev, ev ≠ Call OpRemoveEmpty)
    (trace_of (TcpServer_run (int_str := ascii_digits) 0 session (Rooms_init 1))).
Proof.
  assert (Forall (λ i, (clock i ≤ 0 + 60)%Z) session) as Hclock.
  { repeat constructor; vm_compute; discriminate. }
  split; [exact Hclock|].
  exact (no_sweep_within_a_minute 0%Z session (Rooms_init 1) Hclock).
Defined.

(** ** One answer per connection *)

Lemma replies_app t1 t2 : replies (t1 ++ t2) = replies t1 ++ replies t2.
Proof. apply filter_app. Qed.

Lemma replies_silent t : Forall silent t → replies t = [].
Proof.
  induction 1 as [|ev t Hev _ IH]; [done|].
  unfold replies in *. rewrite filter_cons_False; [done|].
  unfold silent in Hev. congruence.
Qed.

Section RepliesOnce.
Context `{PyInt}.

Lemma once_silent {A} (m : M A) :
  respects (λ _, True) silent m → replies_once m.
Proof.
  intros Hm st. destruct (Hm st I) as [_ Ht].
  rewrite (replies_silent _ Ht). destruct (outcome_of (m st)); simpl; [lia | done].
Qed.

Lemma once_send sock msg : replies_once (emit (Send sock msg)).
Proof. intros st. cbv. lia. Qed.

Lemma once_bind {A B} (m : M A) (f : A → M B) :
  respects (λ _, True) silent m → (∀ a, replies_once (f a)) →
  replies_once (m ≫= f).
Proof.
  intros Hm Hf st. destruct (Hm st I) as [_ Ht].
  unfold mbind, M_bind, bind, outcome_of, trace_of in *.
  destruct (m st) as [[st1 t1] [a|e]]; simpl in *; [|by apply replies_silent].
  specialize (Hf a st1). unfold outcome_of, trace_of in Hf.
  destruct (f a st1) as [[st2 t2] r]; simpl in *.
  by rewrite replies_app, (replies_silent _ Ht).
Qed.

Lemma once_try_except {A} (m : M A) handler :
  replies_once m →
  (∀ e h, handler e = Some h → replies_once h) →
  replies_once (try_except m handler).
Proof.
  intros Hm Hh st. specialize (Hm st).
  unfold try_except, outcome_of, trace_of in *.
  destruct (m st) as [[st1 t1] [a|e]]; simpl in *; [done|].
  destruct (handler e) as [h|] eqn:He; [|done].
  specialize (Hh e h He st1). unfold outcome_of, trace_of in Hh.
  destruct (h st1) as [[st2 t2] r]; simpl in *.
  by rewrite replies_app, Hm.
Qed.

Lemma once_try_finally {A} (m : M A) fin :
  replies_once m → respects (λ _, True) silent fin →
  replies_once (try_finally m fin).
Proof.
  intros Hm Hfin st. specialize (Hm st).
  unfold try_finally, outcome_of, trace_of in *.
  destruct (m st) as [[st1 t1] r]; simpl in *.
  destruct (Hfin st1 I) as [_ Ht]. unfold trace_of in Ht.
  destruct (fin st1) as [[st2 t2] r2]; simpl in *.
  by rewrite replies_app, (replies_silent _ Ht), app_nil_r.
Qed.

Lemma route_replies_once sock addr action payload identifier room_id :
  replies_once (route sock addr action payload identifier room_id).
Proof.
  assert (∀ e h, join_handler room_id sock e = Some h → replies_once h) as Hjoin.
  { intros [] h [= <-]; apply once_send. }
  assert (∀ e h, leave_handler room_id sock e = Some h → replies_once h) as Hleave.
  { intros [] h [= <-]; apply once_send. }
  unfold route, send_tcp, send_str.
  repeat first
    [ apply once_send
    | apply once_try_except; [|done]
    | apply once_bind;
        [ first [ by apply register_events | by apply create_events
                | by apply join_events | apply respects_get
                | apply lift_respects | apply dict_key_respects
                | by apply respects_emit ]
        | intros ? ]
    | apply once_silent; first [apply respects_ret | apply respects_raise]
    | case_match ].
Qed.

Lemma tcp_dispatch_replies_once sock addr data :
  replies_once (tcp_dispatch sock addr data).
Proof.
  unfold tcp_dispatch.
  repeat (apply once_bind;
    [ first [ apply json_loads_respects | apply subscript_respects
            | apply subscript_or_none_respects | by apply respects_emit ]
    | intros ? ]).
  apply once_try_finally; [apply route_replies_once | by apply respects_emit].
Qed.
End RepliesOnce.

(** X10.  Per connection the control plane writes at most one message,
    and writes on and closes no other connection; when the iteration ends
    in an exception, nothing at all was written. *)
Theorem at_most_one_reply `{PyInt} sock addr data st :
  Forall (on_conn sock) (trace_of (tcp_serve sock addr data st)) ∧
  match outcome_of (tcp_serve sock addr data st) with
  | Ret _ => List.length (replies (trace_of (tcp_serve sock addr data st))) ≤ 1
  | Raise _ => replies (trace_of (tcp_serve sock addr data st)) = []
  end.
Proof.
  split; [by apply (tcp_serve_events (on_conn sock) sock)|].
  assert (replies_once (try_except (tcp_dispatch sock addr data)
                          (tcp_handler sock addr))) as Honce.
  { apply once_try_except; [apply tcp_dispatch_replies_once|].
    intros [] h [= <-]; (apply once_bind; [by apply respects_emit|]);
      intros _; apply once_silent, respects_raise. }
  specialize (Honce st). unfold tcp_serve.
  unfold mbind, M_bind, bind, emit, outcome_of, trace_of in *.
  destruct (try_except _ _ st) as [[st1 t1] [[]|e]]; simpl in *; [|done].
  rewrite replies_app. simpl. rewrite app_nil_r. done.
Qed.

(** ** What the data plane can do *)

Lemma udp_serve_relay_events st addr data :
  respects (λ s, s = st) relay_event (udp_serve addr data).
Proof.
  apply (respects_both _ (udp_event st (datagram_identifier data)));
    [apply udp_serve_relay|].
  unfold udp_serve, udp_dispatch. apply respects_try_except.
  - repeat (apply respects_bind;
      [ first [ apply json_loads_respects | apply subscript_or_none_respects ]
      | intros ? ]).
    apply respects_try_except;
      [|intros [] ? [= <-]; by apply respects_emit].
    unfold udp_locked.
    repeat first
      [ apply dict_key_respects | apply respects_get | apply respects_raise
      | apply respects_emit; done
      | apply respects_try_finally
      | apply udp_relay_respects; intros;
          [by apply send_events | by apply sendto_events]
      | apply respects_bind; [|intros ?]
      | case_match ].
  - intros [] h [= <-]; by apply respects_emit.
Qed.

(** X11.  Along any run of the data plane the store stays as it was,
    the only methods of the store that are called are [send] and
    [sendto], and nothing is written on a connection. *)
Theorem data_plane_only_relays inputs st :
  store_of (UdpServer_run inputs st) = st ∧
  Forall relay_event (trace_of (UdpServer_run inputs st)).
Proof.
  assert (respects (λ s, s = st) relay_event (UdpServer_run inputs)) as Hrun.
  { induction inputs as [|i inputs IH]; simpl; [apply respects_ret|].
    apply respects_bind; [|done].
    destruct i as [[data addr]|]; [apply udp_serve_relay_events | apply respects_ret]. }
  by apply Hrun.
Qed.

Lemma has_key_subscript k v st :
  subscript v k st
  = (st, [], if has_key k v then Ret (field k v) else Raise
       (if is_object v then KeyError else TypeError)).
Proof.
  unfold subscript, has_key, field. destruct v as [| | | | | |kvs]; try done.
  by destruct (obj_get k kvs).
Qed.

Lemma send_starts_with_call identifier room message st :
  ∃ t o, Rooms_send identifier room message st = (st, Call OpSend :: t, o).
Proof.
  destruct (send_relay st identifier room message st eq_refl) as [Hst _].
  unfold Rooms_send in *. run_m.
  destruct (room_lookup room (rooms st)); simpl in *; [|by eexists _, _].
  destruct (sender_in_room st identifier room); simpl in *; [|by eexists _, _].
  destruct (deliver _ _ _ _) as [[st1 t1] o]; simpl in *. subst st1.
  by eexists _, _.
Qed.

Lemma sendto_starts_with_call identifier room recipients message st :
  ∃ t o, Rooms_sendto identifier room recipients message st
         = (st, Call OpSendto :: t, o).
Proof.
  destruct (sendto_relay st identifier room recipients message st eq_refl)
    as [Hst _].
  unfold Rooms_sendto in *. run_m.
  destruct (room_lookup room (rooms st)); simpl in *; [|by eexists _, _].
  destruct (sender_in_room st identifier room); simpl in *; [|by eexists _, _].
  destruct (deliver _ _ _ _) as [[st1 t1] o]; simpl in *. subst st1.
  by eexists _, _.
Qed.

(** X12.  For a datagram to an existing room, the store is called
    exactly when the action is [send] or [sendto] and the payload has the
    keys read for it ([message], and [recipients] for [sendto]); in any
    other case the lock is taken and released and nothing else happens,
    not even a log line. *)
Theorem relay_called_when_arguments_ok addr data room st :
  is_object data = true →
  names_room st (field "room_id" data) = Some room →
  if relay_args_ok (field "action" data) (field "payload" data)
  then ∃ t,
      trace_of (udp_serve addr (Decoded data) st)
      = Acquire
          :: Call (if is_str (field "action" data) "send" then OpSend else OpSendto)
          :: t
  else udp_serve addr (Decoded data) st = (st, [Acquire; Release], Ret tt).
Proof.
  intros Hobj Hroom. rewrite (udp_serve_known_room _ _ _ _ Hobj Hroom).
  unfold relay_args_ok, udp_relay, after, try_finally, suppress, try_except,
    mbind, M_bind, bind.
  destruct (is_str (field "action" data) "send");
    [|destruct (is_str (field "action" data) "sendto")].
  - rewrite has_key_subscript.
    destruct (has_key "message" (field "payload" data)); [|done].
    destruct (send_starts_with_call (field "identifier" data) room
                (field "message" (field "payload" data)) st) as (t & o & ->).
    destruct o; simpl; by eexists.
  - rewrite has_key_subscript.
    destruct (has_key "recipients" (field "payload" data)); [|done].
    rewrite has_key_subscript.
    destruct (has_key "message" (field "payload" data)); [|done].
    destruct (sendto_starts_with_call (field "identifier" data) room
                (field "recipients" (field "payload" data))
                (field "message" (field "payload" data)) st) as (t & o & ->).
    destruct o; simpl; by eexists.
  - done.
Qed.

Lemma relay_called_when_arguments_ok_witness :
  udp_serve host_b (Decoded ping_datagram) pair_store
  = (pair_store, [Acquire; Release], Ret tt) ∧
  ∃ t, trace_of (udp_serve host_b (Decoded hello_datagram) pair_store)
       = Acquire :: Call OpSend :: t.
Proof.
  assert (names_room pair_store (JStr "0") = Some "0") as Hroom
    by (vm_compute; reflexivity).
  split.
  - exact (relay_called_when_arguments_ok host_b ping_datagram "0" pair_store
             eq_refl Hroom).
  - exact (relay_called_when_arguments_ok host_b hello_datagram "0" pair_store
             eq_refl Hroom).
Defined.

Lemma udp_serve_unhashable_room addr data st :
  is_object data = true →
  hashable (field "room_id" data) = false →
  udp_serve addr (Decoded data) st = (st, [], Raise TypeError).
Proof.
  intros Hobj Hhash. unfold udp_serve, try_except at 1.
  rewrite (udp_dispatch_object _ _ Hobj). unfold udp_locked.
  by destruct (field "room_id" data).
Qed.

(** X13.  The data plane dies of exactly three kinds of datagram:
    bytes nested too deep for the decoder ([RecursionError]), a decoded
    value that is not an object, and an object whose [room_id] is a list
    or an object (both [TypeError]).  For these the exception leaves the
    loop before anything is logged or locked, and the datagrams that
    follow are never processed; every other datagram is handled to the
    end. *)
Theorem fatal_datagrams addr data inputs st :
  match fatal_datagram data with
  | Some e =>
      udp_serve addr data st = (st, [], Raise e)
      ∧ UdpServer_run (Some (data, addr) :: inputs) st = (st, [], Raise e)
  | None => outcome_of (udp_serve addr data st) = Ret tt
  end.
Proof.
  destruct data as [d| |]; [|done..]. unfold fatal_datagram.
  destruct (is_object d) eqn:Hobj; simpl.
  - destruct (hashable (field "room_id" d)) eqn:Hhash; simpl.
    + destruct (names_room st (field "room_id" d)) as [room|] eqn:Hroom.
      * rewrite (udp_serve_known_room _ _ _ _ Hobj Hroom).
        unfold after, try_finally, outcome_of. simpl.
        pose proof (udp_relay_returns (field "action" d) (field "identifier" d)
                      (field "payload" d) room st) as Hret.
        unfold outcome_of in Hret. by destruct (udp_relay _ _ _ _ _) as [[? ?] ?].
      * by rewrite (udp_serve_unknown_room _ _ _ Hobj Hhash Hroom).
    + unfold mbind, M_bind, bind.
      by rewrite (udp_serve_unhashable_room _ _ _ Hobj Hhash).
  - unfold mbind, M_bind, bind. by rewrite (udp_serve_not_object _ _ _ Hobj).
Qed.

Lemma fatal_datagrams_witness :
  UdpServer_run [Some (Decoded list_room_datagram, host_b);
                 Some (Decoded hello_datagram, host_b)] pair_store
  = (pair_store, [], Raise TypeError)
  ∧ UdpServer_run [Some (TooDeep, host_b); Some (Decoded hello_datagram, host_b)]
      pair_store
    = (pair_store, [], Raise RecursionError).
Proof.
  split.
  - exact (proj2 (fatal_datagrams host_b (Decoded list_room_datagram)
                    [Some (Decoded hello_datagram, host_b)] pair_store)).
  - exact (proj2 (fatal_datagrams host_b TooDeep
                    [Some (Decoded hello_datagram, host_b)] pair_store)).
Defined.

(** ** When the lock is taken *)

Lemma lock_events_free t : Forall no_lock t → filter (λ ev, is_lock_event ev = true) t = [].
Proof.
  induction 1 as [|ev t Hev _ IH]; [done|].
  rewrite filter_cons_False; [done|]. unfold no_lock in Hev. congruence.
Qed.

(** X14.  The control plane takes the lock, once, exactly for the
    decoded objects that have an [action]; the data plane takes it, once,
    exactly for the decoded objects whose [room_id] names a room.  For
    anything else the lock is not touched. *)
Theorem lock_taken_once `{PyInt} :
  (∀ sock addr data st,
     filter (λ ev, is_lock_event ev = true) (trace_of (tcp_serve sock addr data st))
     = if bool_decide (is_Some (decoded data ≫= envelope_action))
       then [Acquire; Release] else []) ∧
  (∀ addr data st,
     filter (λ ev, is_lock_event ev = true) (trace_of (udp_serve addr data st))
     = if bool_decide (is_Some (decoded data ≫= λ d,
                         if is_object d then names_room st (field "room_id" d)
                         else None))
       then [Acquire; Release] else []).
Proof.
  split.
  - intros sock addr [d| |] st; [|done..]. simpl.
    destruct (envelope_action d) as [action|] eqn:Ha.
    + rewrite bool_decide_true by done.
      rewrite (tcp_serve_object _ _ _ _ _ Ha).
      destruct (route_no_lock sock addr action (field "payload" d)
                  (field "identifier" d) (field "room_id" d) st I) as [_ Ht].
      unfold trace_of in *.
      destruct (route _ _ _ _ _ _ _) as [[st1 t1] [[]|[]]]; simpl in *;
        rewrite filter_cons_True by done; rewrite filter_app;
        by rewrite (lock_events_free _ Ht).
    + rewrite bool_decide_false by (by intros [? ?]).
      destruct (is_object d) eqn:Hobj.
      * by rewrite (malformed_envelope_shape sock addr d st Hobj Ha).
      * by destruct d.
  - intros addr [d| |] st; [|done..]. simpl.
    destruct (is_object d) eqn:Hobj;
      [|rewrite (udp_serve_not_object _ _ _ Hobj); by rewrite bool_decide_false
          by (by intros [? ?])].
    destruct (names_room st (field "room_id" d)) as [room|] eqn:Hroom.
    + rewrite bool_decide_true by done.
      rewrite (udp_serve_known_room _ _ _ _ Hobj Hroom).
      destruct (udp_relay_no_lock (field "action" d) (field "identifier" d)
                  (field "payload" d) room st I) as [_ Ht].
      unfold after, try_finally, emit, trace_of in *.
      destruct (udp_relay _ _ _ _ _) as [[st1 t1] o]; simpl in *.
      rewrite filter_cons_True by done. rewrite filter_app.
      by rewrite (lock_events_free _ Ht).
    + rewrite bool_decide_false by (by intros [? ?]).
      destruct (hashable (field "room_id" d)) eqn:Hhash.
      * by rewrite (udp_serve_unknown_room _ _ _ Hobj Hhash Hroom).
      * by rewrite (udp_serve_unhashable_room _ _ _ Hobj Hhash).
Qed.

(** X15.  Every call of the store made by the data plane is made with
    the lock held, along any run; and so is every call made by the
    control plane along a run in which no sweep falls due. *)
Theorem store_calls_under_lock `{PyInt} :
  (∀ inputs st,
     lock_discipline false (trace_of (UdpServer_run inputs st)) = Some false) ∧
  (∀ time_reference inputs st,
     Forall (λ i, (clock i ≤ time_reference + 60)%Z) inputs →
     lock_discipline false (trace_of (TcpServer_run time_reference inputs st))
     = Some false).
Proof.
  split; [intros; apply (UdpServer_run_orderly true)|].
  intros t inputs st Hclock. revert st.
  induction Hclock as [|i inputs Hi _ IH]; intros st; simpl; [done|].
  unfold tcp_iteration. rewrite bool_decide_false by lia.
  unfold lock_discipline, mbind, M_bind, bind, mret, M_ret, ret, trace_of in *.
  simpl.
  destruct (accepted i) as [[[sock addr] data]|]; simpl.
  - pose proof (tcp_serve_orderly true sock addr data st) as Hserve.
    unfold trace_of in Hserve.
    destruct (tcp_serve sock addr data st) as [[st1 t1] [[]|e]]; simpl in *;
      [|done].
    specialize (IH st1).
    destruct (TcpServer_run t inputs st1) as [[st2 t2] r]; simpl in *.
    by rewrite app_nil_r, lock_walk_app, Hserve.
  - specialize (IH st). by destruct (TcpServer_run t inputs st) as [[st2 t2] r].
Qed.

Lemma store_calls_under_lock_witness :
  Forall (λ i, (clock i ≤ 0 + 60)%Z) session ∧
  lock_discipline false (trace_of (TcpServer_run (int_str := ascii_digits) 0 session (Rooms_init 1)))
  = Some false.
Proof.
  assert (Forall (λ i, (clock i ≤ 0 + 60)%Z) session) as Hclock.
  { repeat constructor; vm_compute; discriminate. }
  split; [exact Hclock|].
  exact (proj2 store_calls_under_lock 0%Z session (Rooms_init 1) Hclock).
Defined.

(** ** The operator console *)






